(** * rapid-prereview: the API router (src/background.js, second document)

    A shallow embedding of the Express route handlers of the API router and
    of the part of the Node stream protocol they rely on, followed by the
    properties of the streaming cache-through endpoints (GET /preprint and
    GET /action), of GET /resolve, of the unimplemented collection routes and
    of POST /action.

    Handlers are written in a small monad that threads the per-request state
    (the closure variable [hasErrored], the upstream stream [s], its
    listeners), appends every outward call to a chronological log, and
    propagates JavaScript exceptions.

    What is taken from Node and the libraries, none of which is under src/:
    - an event goes to the listeners of [s] in the order they were attached,
      and a listener that throws stops the delivery ([EventEmitter.emit]);
    - [s.pipe(dest)] writes every 'data' chunk to [dest] and ends [dest] at
      'end'; a destination that closes is unpiped;
    - concat-stream calls back with all the bytes it was written, when it is
      ended; the callback is taken to run inside that 'end' turn, which is the
      case when 'end' comes in a later turn than the last 'data', and no
      statement below depends on its order with [res.end()];
    - a stream that has ended, or whose [destroy()] has completed, delivers no
      further 'data' or 'end'; [destroy()] itself may throw. *)

From Stdlib Require Import List String Ascii Bool Arith Lia.
From Stdlib.Strings Require Import Byte.
From Stdlib Require Import DecimalString DecimalNat ZArith.
Import ListNotations.
Local Open Scope string_scope.
Local Open Scope list_scope.

Set Implicit Arguments.
Set Warnings "-register-all".

(** ** Values crossing the handlers *)

(** A chunk of the upstream body, and the buffer concat-stream assembles. *)
Definition Chunk := list byte.
Definition Buffer := list byte.

(** JSON values: what [JSON.parse] returns, what [req.cache] stores and what
    [res.json] serialises. *)
Inductive Json : Type :=
| JNull
| JBool (b : bool)
| JNum (literal : string)
| JStr (s : string)
| JArr (items : list Json)
| JObj (fields : list (string * Json)).

(** Thrown or forwarded values.  [HttpError] is what [createError] builds;
    [SyntaxError] is what [JSON.parse] throws; [OtherError] stands for any
    other error object (an upstream failure, a rejected promise). *)
Inductive Err : Type :=
| HttpError (statusCode : nat) (message : string)
| SyntaxError
| OtherError (name : string).

(** Modelled from the spec: [createError] of ../utils/errors, which is not
    under src/.  It is taken as the constructor of an HTTP-style error that
    carries the status code and the message it is given. *)
Definition createError (statusCode : nat) (message : string) : Err :=
  HttpError statusCode message.

(** A value of [req.query] as Express's query parser produces it. *)
Inductive QueryValue : Type :=
| QStr (s : string)
| QArr (items : list string)
| QObj (fields : list (string * string)).

Definition Query := list (string * QueryValue).

Fixpoint query_get (q : Query) (name : string) : option QueryValue :=
  match q with
  | [] => None
  | (k, v) :: q' => if String.eqb k name then Some v else query_get q' name
  end.

(** JavaScript truthiness of [req.query.identifier]: [undefined] and the
    empty string are falsy, every other string, array or object is truthy. *)
Definition truthy (v : option QueryValue) : bool :=
  match v with
  | None => false
  | Some (QStr "") => false
  | Some _ => true
  end.

(** The two streaming queries of [req.db]. *)
Inductive StreamKind : Type := Preprints | Actions.

(** The two destinations the upstream stream is piped to. *)
Inductive Sink : Type :=
| SConcat   (* concatStream(buffer => ...) *)
| SRes.     (* res *)

(** ** Outward calls

    Every call a handler makes on [res], [next], [req.cache], [req.db],
    [resolve] or the upstream stream is appended to the log. *)
Inductive Effect : Type :=
| FxSetHeader (name value : string)        (* res.setHeader(name, value) *)
| FxStatus (statusCode : nat)              (* res.status(statusCode) *)
| FxResWrite (chunk : Chunk)               (* res.write(chunk), through the pipe *)
| FxResEnd                                 (* res.end(), through the pipe *)
| FxJson (body : Json)                     (* res.json(body) *)
| FxNext (err : Err)                       (* next(err) *)
| FxCache (body : Json)                    (* req.cache(body) *)
| FxDestroy                                (* s.destroy() *)
| FxDbStream (kind : StreamKind) (q : Query)  (* req.db.streamPreprints / streamActions *)
| FxDbPost (body : Json) (user : option Json) (* req.db.post(body, {user}) *)
| FxResolve (identifier : option QueryValue) (config : Json) (* resolve(identifier, config) *)
| FxUncaught (err : Err).                  (* an exception nobody caught *)

(** ** Per-request state *)

(** The listeners attached to the upstream stream [s], named after the code
    that attaches them. *)
Inductive Listener : Type :=
| OnResponse             (* s.on('response', response => { ... }) *)
| OnError                (* s.on('error', err => { ... }) *)
| PipeTo (dest : Sink).  (* s.pipe(dest): the pipe's 'data' and 'end' listeners *)

Definition is_pipe_to_res (l : Listener) : bool :=
  match l with
  | PipeTo SRes => true
  | _ => false
  end.

Record World : Type := mkWorld {
  hasErrored : bool;              (* let hasErrored = false *)
  s_destroyed : bool;             (* s.destroy() completed *)
  s_ended : bool;                 (* s emitted 'end' *)
  s_listeners : list Listener;    (* the listeners of s, in the order attached *)
  concat_buf : Buffer;            (* what concat-stream has been written *)
  fx : list Effect                (* the log, oldest first *)
}.

Definition fresh : World :=
  mkWorld false false false [] [] [].

Definition set_hasErrored (b : bool) (w : World) : World :=
  mkWorld b (s_destroyed w) (s_ended w) (s_listeners w) (concat_buf w) (fx w).
Definition set_destroyed (b : bool) (w : World) : World :=
  mkWorld (hasErrored w) b (s_ended w) (s_listeners w) (concat_buf w) (fx w).
Definition set_ended (b : bool) (w : World) : World :=
  mkWorld (hasErrored w) (s_destroyed w) b (s_listeners w) (concat_buf w) (fx w).
Definition set_listeners (ls : list Listener) (w : World) : World :=
  mkWorld (hasErrored w) (s_destroyed w) (s_ended w) ls (concat_buf w) (fx w).
Definition set_concat_buf (b : Buffer) (w : World) : World :=
  mkWorld (hasErrored w) (s_destroyed w) (s_ended w) (s_listeners w) b (fx w).
Definition log (e : Effect) (w : World) : World :=
  mkWorld (hasErrored w) (s_destroyed w) (s_ended w) (s_listeners w)
          (concat_buf w) (fx w ++ [e]).

(** ** The handler monad: state, log and exceptions *)

Inductive Outcome (A : Type) : Type :=
| Ret (a : A)
| Raise (e : Err).
Arguments Raise {A} e.

Definition M (A : Type) : Type := World -> World * Outcome A.

Definition ret {A} (a : A) : M A := fun w => (w, Ret a).
Definition throw {A} (e : Err) : M A := fun w => (w, Raise e).
Definition bind {A B} (m : M A) (k : A -> M B) : M B :=
  fun w => match m w with
           | (w', Ret a) => k a w'
           | (w', Raise e) => (w', Raise e)
           end.
(** [try { body } catch (err) { handler(err) }] *)
Definition try_catch {A} (body : M A) (handler : Err -> M A) : M A :=
  fun w => match body w with
           | (w', Ret a) => (w', Ret a)
           | (w', Raise e) => handler e w'
           end.

Definition get {A} (f : World -> A) : M A := fun w => (w, Ret (f w)).
Definition modify (f : World -> World) : M unit := fun w => (f w, Ret tt).
Definition emit (e : Effect) : M unit := modify (log e).

Declare Scope js_scope.
Delimit Scope js_scope with js.
Notation "x <- m ;; k" := (bind m (fun x => k))
  (at level 100, m at next level, right associativity) : js_scope.
Notation "m ;; k" := (bind m (fun _ => k))
  (at level 100, right associativity) : js_scope.
Local Open Scope js_scope.

(** [if (c) { m }] *)
Definition when (c : bool) (m : M unit) : M unit :=
  if c then m else ret tt.

(** Calls each listener in turn; a listener that throws stops the rest, as
    [EventEmitter.emit] does. *)
Fixpoint for_each {A} (f : A -> M unit) (l : list A) : M unit :=
  match l with
  | [] => ret tt
  | a :: l' => f a ;; for_each f l'
  end.

(** ** The request, as the handlers read it *)

(** [req.app.locals.config] and [req.user] are plain objects. *)
Definition Config := Json.
Definition User := Json.

Record Request : Type := mkRequest {
  query : Query;                 (* req.query *)
  body : Json;                   (* req.body, after jsonParser *)
  isAuthenticated : bool;        (* req.isAuthenticated() *)
  user : option User;            (* req.user *)
  config : Config                (* req.app.locals.config *)
}.

(** ** Calls on the collaborators *)

Definition res_setHeader (name value : string) : M unit :=
  emit (FxSetHeader name value).
Definition res_status (statusCode : nat) : M unit := emit (FxStatus statusCode).
Definition res_json (b : Json) : M unit := emit (FxJson b).
Definition next (err : Err) : M unit := emit (FxNext err).
Definition req_cache (b : Json) : M unit := emit (FxCache b).

(** [s.on(event, listener)]: attaches after the listeners already there. *)
Definition s_on (l : Listener) : M unit :=
  modify (fun w => set_listeners (s_listeners w ++ [l]) w).

(** [s.pipe(dest)] *)
Definition s_pipe (dest : Sink) : M unit := s_on (PipeTo dest).

(** [s.destroy()].  Whether the teardown throws is the stream's choice, given
    by [throws]; a teardown that completes releases the stream. *)
Definition s_destroy (throws : option Err) : M unit :=
  emit FxDestroy ;;
  match throws with
  | Some e => throw e
  | None => modify (set_destroyed true)
  end.

(** What the upstream stream, or the client connection, can do after the
    handler has returned. *)
Inductive Event : Type :=
| EvResponse (statusCode : nat)                 (* s emits 'response' *)
| EvData (chunk : Chunk)                        (* s emits 'data' *)
| EvEnd                                         (* s emits 'end' *)
| EvError (err : Err) (teardown : option Err)   (* s emits 'error'; [teardown] is
                                                   what s.destroy() throws, if
                                                   it does, when called now *)
| EvResClose.                                   (* the client closes res *)

Definition is_end (ev : Event) : bool :=
  match ev with EvEnd => true | _ => false end.

Section Streaming.

(** [JSON.parse] on the assembled buffer; [None] when it throws. *)
Variable JSON_parse : Buffer -> option Json.

Definition JSON_parse_js (buffer : Buffer) : M Json :=
  match JSON_parse buffer with
  | Some v => ret v
  | None => throw SyntaxError
  end.

(** *** The listeners of GET /preprint and GET /action *)

(** [response => { res.status(response.statusCode); }] *)
Definition on_response (statusCode : nat) : M unit :=
  res_status statusCode.

(** [err => { if (!hasErrored) { hasErrored = true; next(err); }
              try { s.destroy(); } catch (err) { } }] *)
Definition on_error (err : Err) (teardown : option Err) : M unit :=
  (h <- get hasErrored ;;
   when (negb h)
     (modify (set_hasErrored true) ;;
      next err)) ;;
  try_catch (s_destroy teardown) (fun _ => ret tt).

(** [buffer => { req.cache(JSON.parse(buffer)); }] *)
Definition on_concat (buffer : Buffer) : M unit :=
  v <- JSON_parse_js buffer ;;
  req_cache v.

(** *** The handlers *)

(** [router.get('/preprint', cors(), parseQuery, cache(), (req, res, next) => ...)] *)
Definition get_preprint (req : Request) : M unit :=
  res_setHeader "content-type" "application/json" ;;
  modify (set_hasErrored false) ;;
  emit (FxDbStream Preprints (query req)) ;;
  s_on OnResponse ;;
  s_on OnError ;;
  s_pipe SConcat ;;
  s_pipe SRes.

(** [router.get('/action', cors(), parseQuery, cache(), (req, res, next) => ...)] *)
Definition get_action (req : Request) : M unit :=
  res_setHeader "content-type" "application/json" ;;
  modify (set_hasErrored false) ;;
  emit (FxDbStream Actions (query req)) ;;
  s_on OnResponse ;;
  s_on OnError ;;
  s_pipe SConcat ;;
  s_pipe SRes.

Definition stream_route (kind : StreamKind) : Request -> M unit :=
  match kind with
  | Preprints => get_preprint
  | Actions => get_action
  end.

(** *** The pipes *)

(** A piped destination receives a chunk. *)
Definition sink_write (chunk : Chunk) (dest : Sink) : M unit :=
  match dest with
  | SConcat => modify (fun w => set_concat_buf (concat_buf w ++ chunk) w)
  | SRes => emit (FxResWrite chunk)
  end.

(** A piped destination is ended: concat-stream hands its buffer to the
    callback, [res] finishes the response. *)
Definition sink_end (dest : Sink) : M unit :=
  match dest with
  | SConcat => buffer <- get concat_buf ;; on_concat buffer
  | SRes => emit FxResEnd
  end.

(** *** The event loop *)

(** The stream delivers body events only while it is neither destroyed nor
    ended. *)
Definition flowing (w : World) : bool :=
  negb (s_destroyed w) && negb (s_ended w).

Definition emitted (ev : Event) (w : World) : bool :=
  match ev with
  | EvData _ | EvEnd => flowing w
  | _ => true
  end.

(** What one listener does with one event. *)
Definition deliver (ev : Event) (l : Listener) : M unit :=
  match ev, l with
  | EvResponse statusCode, OnResponse => on_response statusCode
  | EvError err teardown, OnError => on_error err teardown
  | EvData chunk, PipeTo dest => sink_write chunk dest
  | EvEnd, PipeTo dest => sink_end dest
  | _, _ => ret tt
  end.

(** One event.  An event of the stream goes to its listeners in the order
    they were attached; the client closing [res] detaches the pipe to [res]. *)
Definition dispatch (ev : Event) : M unit :=
  match ev with
  | EvResClose =>
      modify (fun w =>
        set_listeners
          (filter (fun l => negb (is_pipe_to_res l)) (s_listeners w)) w)
  | _ =>
      live <- get (emitted ev) ;;
      when live
        (when (is_end ev) (modify (set_ended true)) ;;
         listeners <- get s_listeners ;;
         for_each (deliver ev) listeners)
  end.

(** One turn of the event loop: an exception that leaves the listeners is
    uncaught. *)
Definition turn (m : M unit) (w : World) : World :=
  match m w with
  | (w', Ret _) => w'
  | (w', Raise e) => log (FxUncaught e) w'
  end.

Fixpoint run (evs : list Event) (w : World) : World :=
  match evs with
  | [] => w
  | ev :: evs' => run evs' (turn (dispatch ev) w)
  end.

(** A whole request: the handler runs, then the events arrive. *)
Definition serve (kind : StreamKind) (req : Request) (evs : list Event)
  : World :=
  run evs (turn (stream_route kind req) fresh).

End Streaming.

(** ** What an observer reads off the log *)

Definition nexts (l : list Effect) : list Err :=
  flat_map (fun e => match e with FxNext err => [err] | _ => [] end) l.
Definition cached (l : list Effect) : list Json :=
  flat_map (fun e => match e with FxCache b => [b] | _ => [] end) l.
Definition uncaught (l : list Effect) : list Err :=
  flat_map (fun e => match e with FxUncaught err => [err] | _ => [] end) l.
Definition res_bytes (l : list Effect) : Buffer :=
  flat_map (fun e => match e with FxResWrite c => c | _ => [] end) l.
Definition statuses (l : list Effect) : list nat :=
  flat_map (fun e => match e with FxStatus c => [c] | _ => [] end) l.
Definition destroys (l : list Effect) : nat :=
  List.length (filter (fun e => match e with FxDestroy => true | _ => false end) l).
Definition is_db_call (e : Effect) : bool :=
  match e with
  | FxDbStream _ _ | FxDbPost _ _ => true
  | _ => false
  end.
Definition is_resolve_call (e : Effect) : bool :=
  match e with
  | FxResolve _ _ => true
  | _ => false
  end.

(** ** The remaining handlers *)

(** [router.get('/review', parseQuery, (req, res, next) => { next(createError(500, ...)); })] *)
Definition get_review (req : Request) : M unit :=
  next (createError 500 "Not implemented yet").

(** [router.get('/request', parseQuery, ...)] *)
Definition get_request (req : Request) : M unit :=
  next (createError 500 "Not implemented yet").

(** [router.get('/user', parseQuery, ...)] *)
Definition get_user (req : Request) : M unit :=
  next (createError 500 "Not implemented yet").

(** [router.get('/role', cors(), parseQuery, ...)] *)
Definition get_role (req : Request) : M unit :=
  next (createError 500 "Not implemented yet").

(** The four collection routes that only answer 'Not implemented yet'. *)
Inductive SearchRoute : Type :=
| SearchReviews | SearchRequests | SearchUsers | SearchRoles.

Definition search_route (r : SearchRoute) : Request -> M unit :=
  match r with
  | SearchReviews => get_review
  | SearchRequests => get_request
  | SearchUsers => get_user
  | SearchRoles => get_role
  end.

Section Collaborators.

(** [req.db.post(body, { user })], awaited: the document it resolves to, or
    the error it rejects with. *)
Variable db_post : Json -> option User -> Err + Json.

(** [resolve(identifier, config)] of ../utils/resolve, awaited. *)
Variable resolve : option QueryValue -> Config -> Err + Json.

Definition await_db_post (b : Json) (u : option User) : M Json :=
  emit (FxDbPost b u) ;;
  match db_post b u with
  | inr doc => ret doc
  | inl err => throw err
  end.

Definition await_resolve (identifier : option QueryValue) (cfg : Config)
  : M Json :=
  emit (FxResolve identifier cfg) ;;
  match resolve identifier cfg with
  | inr data => ret data
  | inl err => throw err
  end.

(** [router.post('/action', cors(), jsonParser, async (req, res, next) => ...)].
    The early [return next(...)] leaves the handler, so what follows it is
    the [else] branch. *)
Definition post_action (req : Request) : M unit :=
  if negb (isAuthenticated req) then
    next (createError 401 "Login required")
  else
    r <- try_catch
           (b <- await_db_post (body req) (user req) ;; ret (Some b))
           (fun err => next err ;; ret None) ;;
    match r with
    | Some b => res_json b
    | None => ret tt
    end.

(** [router.get('/resolve', cors(), async (req, res, next) => ...)] *)
Definition get_resolve (req : Request) : M unit :=
  let identifier := query_get (query req) "identifier" in
  if negb (truthy identifier) then
    next (createError 400 "missing identifier query string parameter")
  else
    let config := config req in
    try_catch
      (data <- await_resolve identifier config ;;
       res_json data)
      (fun err => next err).

End Collaborators.

(** ** A reference [JSON.parse]

    [JSON.parse] is the JavaScript built-in.  The theorems below hold for any
    parser; the closed examples run this recursive-descent parser, which
    follows the JSON grammar except that it rejects [\u] escapes inside
    strings.  A number is kept as its literal text. *)
Module JsonText.

Local Open Scope char_scope.

Definition is_ws (c : ascii) : bool :=
  match c with
  | " " | "009" | "010" | "013" => true
  | _ => false
  end.

Definition is_digit (c : ascii) : bool :=
  let n := nat_of_ascii c in ((48 <=? n) && (n <=? 57))%nat.

Fixpoint skip_ws (s : string) : string :=
  match s with
  | String c s' => if is_ws c then skip_ws s' else s
  | EmptyString => s
  end.

Fixpoint strip_prefix (p s : string) : option string :=
  match p, s with
  | EmptyString, _ => Some s
  | String a p', String b s' =>
      if Ascii.eqb a b then strip_prefix p' s' else None
  | _, EmptyString => None
  end.

(** The longest run of digits at the head of [s], and what follows it. *)
Fixpoint digits (s : string) : string * string :=
  match s with
  | String c s' =>
      if is_digit c then let (d, r) := digits s' in (String c d, r)
      else (EmptyString, s)
  | EmptyString => (EmptyString, s)
  end.

(** int: [0] or a digit run that does not start with [0]. *)
Definition int_part (s : string) : option (string * string) :=
  match digits s with
  | (EmptyString, _) => None
  | (String "0" EmptyString, r) => Some (String "0" EmptyString, r)
  | (String "0" _, _) => None
  | (d, r) => Some (d, r)
  end.

Definition frac_part (s : string) : option (string * string) :=
  match s with
  | String "." s' =>
      match digits s' with
      | (EmptyString, _) => None
      | (d, r) => Some (String "." d, r)
      end
  | _ => Some (EmptyString, s)
  end.

Definition exp_digits (mark : string) (s : string) : option (string * string) :=
  match digits s with
  | (EmptyString, _) => None
  | (d, r) => Some (mark ++ d, r)
  end%string.

Definition exp_part (s : string) : option (string * string) :=
  match s with
  | String "e" (String "+" s') => exp_digits "e+" s'
  | String "e" (String "-" s') => exp_digits "e-" s'
  | String "E" (String "+" s') => exp_digits "E+" s'
  | String "E" (String "-" s') => exp_digits "E-" s'
  | String "e" s' => exp_digits "e" s'
  | String "E" s' => exp_digits "E" s'
  | _ => Some (EmptyString, s)
  end.

Definition unsigned_number (s : string) : option (string * string) :=
  match int_part s with
  | None => None
  | Some (i, r1) =>
      match frac_part r1 with
      | None => None
      | Some (f, r2) =>
          match exp_part r2 with
          | None => None
          | Some (e, r3) => Some ((i ++ f ++ e)%string, r3)
          end
      end
  end.

Definition number (s : string) : option (string * string) :=
  match s with
  | String "-" s' =>
      match unsigned_number s' with
      | Some (n, r) => Some (String "-" n, r)
      | None => None
      end
  | _ => unsigned_number s
  end.

(** The characters of a string literal after its opening quote, up to and
    without the closing quote. *)
Fixpoint string_body (s : string) : option (string * string) :=
  match s with
  | EmptyString => None
  | String "034" r => Some (EmptyString, r)
  | String "\" (String e r) =>
      let unescaped :=
        match e with
        | "034" => Some "034"
        | "\" => Some "\"
        | "/" => Some "/"
        | "b" => Some "008"
        | "f" => Some "012"
        | "n" => Some "010"
        | "r" => Some "013"
        | "t" => Some "009"
        | _ => None
        end in
      match unescaped, string_body r with
      | Some c, Some (t, r') => Some (String c t, r')
      | _, _ => None
      end
  | String "\" EmptyString => None
  | String c r =>
      if (nat_of_ascii c <? 32)%nat then None
      else match string_body r with
           | Some (t, r') => Some (String c t, r')
           | None => None
           end
  end.

Inductive Mode : Type :=
| MValue                                    (* a value *)
| MItems (acc : list Json)                  (* the rest of an array *)
| MFields (acc : list (string * Json)).     (* the rest of an object *)

Fixpoint parse (fuel : nat) (m : Mode) (s : string) : option (Json * string) :=
  match fuel with
  | 0 => None
  | S fuel' =>
      match m with
      | MValue =>
          match skip_ws s with
          | String "n" _ =>
              option_map (fun r => (JNull, r)) (strip_prefix "null" (skip_ws s))
          | String "t" _ =>
              option_map (fun r => (JBool true, r)) (strip_prefix "true" (skip_ws s))
          | String "f" _ =>
              option_map (fun r => (JBool false, r)) (strip_prefix "false" (skip_ws s))
          | String "034" r =>
              option_map (fun p => (JStr (fst p), snd p)) (string_body r)
          | String "[" r =>
              match skip_ws r with
              | String "]" r' => Some (JArr [], r')
              | _ => parse fuel' (MItems []) r
              end
          | String "{" r =>
              match skip_ws r with
              | String "}" r' => Some (JObj [], r')
              | _ => parse fuel' (MFields []) r
              end
          | _ => option_map (fun p => (JNum (fst p), snd p)) (number (skip_ws s))
          end
      | MItems acc =>
          match parse fuel' MValue s with
          | Some (v, r) =>
              match skip_ws r with
              | String "," r' => parse fuel' (MItems (acc ++ [v])) r'
              | String "]" r' => Some (JArr (acc ++ [v]), r')
              | _ => None
              end
          | None => None
          end
      | MFields acc =>
          match skip_ws s with
          | String "034" r =>
              match string_body r with
              | Some (k, r1) =>
                  match skip_ws r1 with
                  | String ":" r2 =>
                      match parse fuel' MValue r2 with
                      | Some (v, r3) =>
                          match skip_ws r3 with
                          | String "," r' =>
                              parse fuel' (MFields (acc ++ [(k, v)])) r'
                          | String "}" r' => Some (JObj (acc ++ [(k, v)]), r')
                          | _ => None
                          end
                      | None => None
                      end
                  | _ => None
                  end
              | None => None
              end
          | _ => None
          end
      end
  end.

(** [JSON.parse(buffer)]: the buffer is read as text, one value is parsed,
    and only white space may follow it. *)
Definition JSON_parse (buffer : Buffer) : option Json :=
  let text := string_of_list_byte buffer in
  match parse (2 * String.length text + 2)%nat MValue text with
  | Some (v, r) =>
      match skip_ws r with
      | EmptyString => Some v
      | _ => None
      end
  | None => None
  end.

End JsonText.

(** The bytes of a text, for writing bodies down. *)
Definition bytes (text : string) : list byte := list_byte_of_string text.

(** ** Vocabulary of the statements *)

(** The listeners of a request after its handler has returned: the handler
    attaches them in this order, and the client closing [res] detaches only
    the pipe to [res]. *)
Definition wired (w : World) : Prop :=
  s_listeners w = [OnResponse; OnError; PipeTo SConcat; PipeTo SRes] \/
  s_listeners w = [OnResponse; OnError; PipeTo SConcat].

(** Whether [res] is still piped. *)
Definition res_piped (w : World) : bool :=
  existsb is_pipe_to_res (s_listeners w).

(** The first error event of a trace. *)
Fixpoint first_error (evs : list Event) : option Err :=
  match evs with
  | [] => None
  | EvError err _ :: _ => Some err
  | _ :: evs' => first_error evs'
  end.

Definition is_close (ev : Event) : bool :=
  match ev with EvResClose => true | _ => false end.
Definition is_error (ev : Event) : bool :=
  match ev with EvError _ _ => true | _ => false end.
Definition is_response (ev : Event) : bool :=
  match ev with EvResponse _ => true | _ => false end.

(** An optional value as a list of at most one element. *)
Definition to_list {A} (o : option A) : list A :=
    match o with Some a => [a] | None => [] end.

(** A request for the closed examples. *)
Definition sample_request : Request :=
  mkRequest [("q", QStr "covid")] JNull false None (JObj []).

(** ** The record routes and the PDF proxy

    The handlers that read one record by id, and GET /pdf, keep no state
    between events: they are written in a writer monad over their own calls,
    with the same exceptions as above. *)

Inductive Call : Type :=
| CallDbGet (key : string)               (* req.db.get(key) *)
| CallCache (body : Json)                (* req.cache(body) *)
| CallJson (body : Json)                 (* res.json(body) *)
| CallNext (err : Err)                   (* next(err) *)
| CallNextCreated (statusCode : nat)     (* next(createError(statusCode)) *)
| CallFetch (url : option QueryValue)    (* fetch(url, { method: 'GET' }) *)
| CallPipeBody (body : list Chunk).      (* r.body.pipe(res) *)

Definition Script (A : Type) : Type := list Call * Outcome A.

Definition sret {A} (a : A) : Script A := ([], Ret a).
Definition sthrow {A} (e : Err) : Script A := ([], Raise e).
Definition sbind {A B} (m : Script A) (k : A -> Script B) : Script B :=
  match m with
  | (l, Ret a) => let (l', o) := k a in (l ++ l', o)
  | (l, Raise e) => (l, Raise e)
  end.
(** [try { body } catch (err) { handler(err) }] *)
Definition stry {A} (body : Script A) (handler : Err -> Script A) : Script A :=
  match body with
  | (l, Ret a) => (l, Ret a)
  | (l, Raise e) => let (l', o) := handler e in (l ++ l', o)
  end.
Definition call (c : Call) : Script unit := ([c], Ret tt).

Declare Scope script_scope.
Delimit Scope script_scope with script.
Notation "x <- m ;; k" := (sbind m (fun x => k))
  (at level 100, m at next level, right associativity) : script_scope.
Notation "m ;; k" := (sbind m (fun _ => k))
  (at level 100, right associativity) : script_scope.

(** The key functions given to the cache middleware of the record routes,
    [cache(req => `preprint:${req.params.preprintId}`)] and the like. *)
Definition preprint_cache_key (preprintId : string) : string :=
  "preprint:" ++ preprintId.
Definition review_cache_key (reviewId : string) : string :=
  "review:" ++ reviewId.
Definition request_cache_key (requestId : string) : string :=
  "request:" ++ requestId.
Definition user_cache_key (userId : string) : string :=
  "user:" ++ userId.
Definition role_cache_key (roleId : string) : string :=
  "role:" ++ roleId.

(** What [fetch] resolves to, as GET /pdf reads it. *)
Record FetchResponse : Type := mkFetchResponse {
  ok : bool;                 (* r.ok *)
  status : nat;              (* r.status *)
  pdf_body : list Chunk      (* r.body *)
}.

Section Records.

(** [req.db.get(key)], awaited: the record, or the error it rejects with. *)
Variable db_get : string -> Err + Json.

(** [fetch(url, { method: 'GET' })], awaited. *)
Variable fetch : option QueryValue -> Err + FetchResponse.

Definition await_db_get (key : string) : Script Json :=
  (call (CallDbGet key) ;;
   match db_get key with
   | inr record => sret record
   | inl err => sthrow err
   end)%script.

Definition await_fetch (url : option QueryValue) : Script FetchResponse :=
  (call (CallFetch url) ;;
   match fetch url with
   | inr r => sret r
   | inl err => sthrow err
   end)%script.

(** [router.get('/preprint/:preprintId', cors(), cache(...), async (req, res, next) => ...)];
    [preprintId] is [req.params.preprintId]. *)
Definition get_preprint_by_id (preprintId : string) : Script unit :=
  stry
    (body <- await_db_get ("preprint:" ++ preprintId) ;;
     call (CallCache body) ;;
     call (CallJson body))%script
    (fun err => call (CallNext err)).

(** [router.get('/review/:reviewId', cache(...), async (req, res, next) => ...)] *)
Definition get_review_by_id (reviewId : string) : Script unit :=
  stry
    (body <- await_db_get ("review:" ++ reviewId) ;;
     call (CallCache body) ;;
     call (CallJson body))%script
    (fun err => call (CallNext err)).

(** [router.get('/request/:requestId', cache(...), async (req, res, next) => ...)] *)
Definition get_request_by_id (requestId : string) : Script unit :=
  stry
    (body <- await_db_get ("request:" ++ requestId) ;;
     call (CallCache body) ;;
     call (CallJson body))%script
    (fun err => call (CallNext err)).

(** [router.get('/user/:userId', cache(...), async (req, res, next) => ...)] *)
Definition get_user_by_id (userId : string) : Script unit :=
  stry
    (body <- await_db_get ("user:" ++ userId) ;;
     call (CallCache body) ;;
     call (CallJson body))%script
    (fun err => call (CallNext err)).

(** [router.get('/role/:roleId', cors(), cache(...), async (req, res, next) => ...)] *)
Definition get_role_by_id (roleId : string) : Script unit :=
  stry
    (body <- await_db_get ("role:" ++ roleId) ;;
     call (CallCache body) ;;
     call (CallJson body))%script
    (fun err => call (CallNext err)).

(** [router.get('/pdf', async (req, res, next) => ...)].  The early
    [return next(err)] leaves the handler. *)
Definition get_pdf (req : Request) : Script unit :=
  let pdfUrl := query_get (query req) "url" in
  (fetched <- stry
                (r <- await_fetch pdfUrl ;; sret (Some r))
                (fun err => call (CallNext err) ;; sret None) ;;
   match fetched with
   | Some r =>
       if ok r then call (CallPipeBody (pdf_body r))
       else call (CallNextCreated (status r))
   | None => sret tt
   end)%script.

End Records.

(** The five record routes. *)
Inductive RecordRoute : Type :=
| PreprintRecord | ReviewRecord | RequestRecord | UserRecord | RoleRecord.

Definition record_route (db_get : string -> Err + Json) (r : RecordRoute)
  : string -> Script unit :=
  match r with
  | PreprintRecord => get_preprint_by_id db_get
  | ReviewRecord => get_review_by_id db_get
  | RequestRecord => get_request_by_id db_get
  | UserRecord => get_user_by_id db_get
  | RoleRecord => get_role_by_id db_get
  end.

Definition cache_key (r : RecordRoute) : string -> string :=
  match r with
  | PreprintRecord => preprint_cache_key
  | ReviewRecord => review_cache_key
  | RequestRecord => request_cache_key
  | UserRecord => user_cache_key
  | RoleRecord => role_cache_key
  end.

(** The calls that settle a request of these routes. *)
Definition settles (c : Call) : bool :=
  match c with
  | CallJson _ | CallNext _ | CallNextCreated _ | CallPipeBody _ => true
  | _ => false
  end.

(** ** The extension's background script (src/background.js, first document) *)

(** Calls on the [chrome] API and on [sendResponse].  A cookie lookup carries
    the callback it was given. *)
Inductive ChromeCall : Type :=
| CookiesGet (url : option string) (name : string)
    (callback : option Json -> list ChromeCall)     (* chrome.cookies.get(details, callback) *)
| SendResponse (type : string) (payload : option Json)  (* sendResponse({ type, payload }) *)
| SetBadgeText (text : string) (tabId : nat)        (* chrome.browserAction.setBadgeText *)
| SetIcon (path : list (string * string)) (tabId : nat) (* chrome.browserAction.setIcon *)
| SetBadgeBackgroundColor (color : string) (tabId : nat). (* chrome.browserAction.setBadgeBackgroundColor *)

(** A port as the listeners read it: [port.name] and [port.sender.tab.id],
    the latter absent when the sender is not a tab. *)
Record Port : Type := mkPort {
  port_name : string;
  sender_tab : option nat
}.

(** A message on the port: [msg.type] and the fields of [msg.payload] the
    listener reads.  The counters are non-negative integers and their sum is
    taken exactly: that is what JavaScript computes while the total is a safe
    integer, at most [MAX_SAFE_INTEGER]; beyond it the sum is rounded, and
    what is stated about the badge text is stated for safe totals only. *)
Record PortMessage : Type := mkPortMessage {
  msg_type : string;
  nReviews : nat;
  nRequests : nat;
  hasGscholar : bool
}.

(** [Number.MAX_SAFE_INTEGER], and a message whose total is a safe integer. *)
Definition MAX_SAFE_INTEGER : Z := (2 ^ 53 - 1)%Z.
Definition safe_total (msg : PortMessage) : Prop :=
  (Z.of_nat (nReviews msg) + Z.of_nat (nRequests msg) <= MAX_SAFE_INTEGER)%Z.

(** [n.toString()] for a safe non-negative integer: its decimal numeral. *)
Definition number_toString (n : nat) : string :=
  NilEmpty.string_of_uint (Nat.to_uint n).

(** The [path] object of the active icon. *)
Definition active_icon : list (string * string) :=
  [("16", "./icons/app-icon--active@16px.png");
   ("24", "./icons/app-icon--active@1x.png");
   ("32", "./icons/app-icon--active@1.5x.png");
   ("48", "./icons/app-icon--active@2x.png")].

Section Background.

(** [CHECK_SESSION_COOKIE] and [SESSION_COOKIE] of ./constants, which is not
    under src/, and [process.env.COOKIE_URL]. *)
Variable CHECK_SESSION_COOKIE : string.
Variable SESSION_COOKIE : string.
Variable COOKIE_URL : option string.

(** [chrome.runtime.onMessage.addListener((request, sender, sendResponse) => ...)].
    [request_type] is [request.type] when it is a string; the result pairs the
    calls made with whether the listener returned [true]. *)
Definition on_runtime_message (request_type : option string)
  : list ChromeCall * bool :=
  match request_type with
  | Some t =>
      if String.eqb t CHECK_SESSION_COOKIE then
        ([CookiesGet COOKIE_URL "rapid.sid"
            (fun cookie => [SendResponse SESSION_COOKIE cookie])],
         true)
      else ([], false)
  | None => ([], false)
  end.

(** [port.sender.tab.id]: reading [id] off an absent tab throws. *)
Definition sender_tab_id (port : Port) : list ChromeCall * Outcome nat :=
  match sender_tab port with
  | Some id => ([], Ret id)
  | None => ([], Raise (OtherError "TypeError"))
  end.

(** [port.onMessage.addListener((msg, port) => { switch (msg.type) ... })].
    The arguments of a call are evaluated before the call is made. *)
Definition on_port_message (port : Port) (msg : PortMessage)
  : list ChromeCall * Outcome unit :=
  if String.eqb (msg_type msg) "STATS" then
    let text := number_toString (nReviews msg + nRequests msg) in
    match sender_tab_id port with
    | (_, Ret tabId) => ([SetBadgeText text tabId], Ret tt)
    | (_, Raise e) => ([], Raise e)
    end
  else if String.eqb (msg_type msg) "HAS_GSCHOLAR" then
    match sender_tab_id port with
    | (_, Ret tabId) =>
        let color := if hasGscholar msg then "#ff3333" else "grey" in
        match sender_tab_id port with
        | (_, Ret tabId') =>
            ([SetIcon active_icon tabId;
              SetBadgeBackgroundColor color tabId'], Ret tt)
        | (_, Raise e) => ([SetIcon active_icon tabId], Raise e)
        end
    | (_, Raise e) => ([], Raise e)
    end
  else ([], Ret tt).

(** [chrome.runtime.onConnect.addListener(port => { if (port.name === 'stats') ... })]:
    the message listener the port is given, if any. *)
Definition on_connect (port : Port)
  : option (PortMessage -> list ChromeCall * Outcome unit) :=
  if String.eqb (port_name port) "stats" then Some (on_port_message port)
  else None.

(** The calls made while a connected port sends its messages, each message
    handled in its own turn. *)
Definition port_session (port : Port) (msgs : list PortMessage)
  : list ChromeCall :=
  match on_connect port with
  | Some listener => flat_map (fun msg => fst (listener msg)) msgs
  | None => []
  end.

End Background.

(** The tab a badge or icon call is aimed at. *)
Definition call_tab (c : ChromeCall) : option nat :=
  match c with
  | SetBadgeText _ tabId | SetIcon _ tabId
  | SetBadgeBackgroundColor _ tabId => Some tabId
  | _ => None
  end.

(** The badge texts and the badge colours set by a run of calls, in order. *)
Definition badge_texts (l : list ChromeCall) : list string :=
  flat_map (fun c => match c with SetBadgeText t _ => [t] | _ => [] end) l.
Definition badge_colors (l : list ChromeCall) : list string :=
  flat_map
    (fun c => match c with SetBadgeBackgroundColor x _ => [x] | _ => [] end) l.

(** The number a decimal numeral denotes. *)
Definition number_of_text (text : string) : option nat :=
  option_map Nat.of_uint (NilEmpty.uint_of_string text).

Definition is_stats (msg : PortMessage) : bool :=
  String.eqb (msg_type msg) "STATS".
Definition is_gscholar (msg : PortMessage) : bool :=
  String.eqb (msg_type msg) "HAS_GSCHOLAR".

(** ** Further observations *)

(** The status codes of the 'response' events of a trace, in order. *)
Definition response_codes (evs : list Event) : list nat :=
  flat_map (fun ev => match ev with EvResponse c => [c] | _ => [] end) evs.

(** The database calls and the headers set in a log. *)
Definition db_calls (l : list Effect) : list Effect := filter is_db_call l.
Definition headers_set (l : list Effect) : list (string * string) :=
  flat_map (fun e => match e with FxSetHeader n v => [(n, v)] | _ => [] end) l.

(** The calls that settle a request: a JSON reply or a forwarded error. *)
Definition is_outcome (e : Effect) : bool :=
  match e with
  | FxJson _ | FxNext _ => true
  | _ => false
  end.
Definition outcomes (l : list Effect) : list Effect := filter is_outcome l.

(** What the commit callback leaves behind.  While the stream flows nothing
    was committed; afterwards either nothing was cached, or the one cached
    value is the parse of the whole buffer and nothing was thrown. *)
Definition committed (JSON_parse : Buffer -> option Json) (w : World) : Prop :=
  (flowing w = true -> cached (fx w) = [] /\ uncaught (fx w) = []) /\
  (cached (fx w) = [] \/
   (uncaught (fx w) = [] /\
    exists v, JSON_parse (concat_buf w) = Some v /\ cached (fx w) = [v])).

(** The bytes written to [res] are a prefix of concat-stream's buffer, and
    the whole of it while [res] is piped. *)
Definition teed (w : World) : Prop :=
  exists tail,
    concat_buf w = res_bytes (fx w) ++ tail /\
    (res_piped w = true -> tail = []).

(** * Properties *)

(** ** The reference parser and the model on concrete inputs *)

Example parse_array :
  JsonText.JSON_parse (bytes " [1, -2.5e+3, true, null, {}] ") =
  Some (JArr [JNum "1"; JNum "-2.5e+3"; JBool true; JNull; JObj []]).
Proof. reflexivity. Qed.

Example parse_rejects_cut_body : JsonText.JSON_parse (bytes "[1,") = None.
Proof. reflexivity. Qed.

Example parse_rejects_empty_body : JsonText.JSON_parse (bytes "") = None.
Proof. reflexivity. Qed.

Example parse_rejects_trailing_text :
  JsonText.JSON_parse (bytes "[1] x") = None.
Proof. reflexivity. Qed.

(** A request that drains cleanly: the upstream status, the two chunks
    written to [res], the parsed body committed to the cache, no error. *)
Example drained_request_log :
  let w := serve JsonText.JSON_parse Preprints sample_request
             [EvResponse 200; EvData (bytes "[1,"); EvData (bytes "2]"); EvEnd] in
  statuses (fx w) = [200] /\
  res_bytes (fx w) = bytes "[1,2]" /\
  cached (fx w) = [JArr [JNum "1"; JNum "2"]] /\
  nexts (fx w) = [] /\
  uncaught (fx w) = [].
Proof. cbv zeta. repeat split; reflexivity. Qed.

(** Three error events, the first teardown throwing: one [next], three
    teardown attempts, and the chunk after the completed teardown is dropped. *)
Example failing_request_log :
  fx (serve JsonText.JSON_parse Actions sample_request
        [EvResponse 200; EvData (bytes "[1,");
         EvError (OtherError "ECONNRESET") (Some (OtherError "EBADF"));
         EvError (OtherError "ETIMEDOUT") None;
         EvData (bytes "2]"); EvEnd;
         EvError (OtherError "EPIPE") None]) =
  [FxSetHeader "content-type" "application/json";
   FxDbStream Actions [("q", QStr "covid")];
   FxStatus 200;
   FxResWrite (bytes "[1,");
   FxNext (OtherError "ECONNRESET");
   FxDestroy; FxDestroy; FxDestroy].
Proof. reflexivity. Qed.

(** ** The observers distribute over the log *)

Lemma nexts_app l1 l2 : nexts (l1 ++ l2) = nexts l1 ++ nexts l2.
Proof. apply flat_map_app. Qed.

Lemma cached_app l1 l2 : cached (l1 ++ l2) = cached l1 ++ cached l2.
Proof. apply flat_map_app. Qed.

Lemma uncaught_app l1 l2 : uncaught (l1 ++ l2) = uncaught l1 ++ uncaught l2.
Proof. apply flat_map_app. Qed.

Lemma res_bytes_app l1 l2 : res_bytes (l1 ++ l2) = res_bytes l1 ++ res_bytes l2.
Proof. apply flat_map_app. Qed.

Lemma statuses_app l1 l2 : statuses (l1 ++ l2) = statuses l1 ++ statuses l2.
Proof. apply flat_map_app. Qed.

Lemma destroys_app l1 l2 : destroys (l1 ++ l2) = destroys l1 + destroys l2.
Proof. unfold destroys. rewrite filter_app. apply length_app. Qed.

Create Rewrite HintDb obs.
#[local] Hint Rewrite nexts_app cached_app uncaught_app res_bytes_app
  statuses_app destroys_app app_nil_r : obs.

(** ** One turn of the event loop, case by case *)

Section StreamingFacts.

Variable JSON_parse : Buffer -> option Json.


Lemma handler_returns kind req :
  turn (stream_route kind req) fresh =
  mkWorld false false false
    [OnResponse; OnError; PipeTo SConcat; PipeTo SRes] []
    [FxSetHeader "content-type" "application/json";
     FxDbStream kind (query req)].
Proof. destruct kind; reflexivity. Qed.

(** The error listener never throws: it forwards the error the first time,
    and attempts the teardown every time. *)
Lemma on_error_returns w err teardown :
  on_error err teardown w =
  (let w1 := if hasErrored w then w
             else log (FxNext err) (set_hasErrored true w) in
   let w2 := log FxDestroy w1 in
   match teardown with
   | Some _ => w2
   | None => set_destroyed true w2
   end, Ret tt).
Proof. destruct w as [[] d e p b l], teardown; reflexivity. Qed.

Lemma turn_response w statusCode :
  wired w ->
  turn (dispatch JSON_parse (EvResponse statusCode)) w =
  log (FxStatus statusCode) w.
Proof.
  destruct w as [h d e p b l]. unfold wired. cbn [s_listeners].
  intros [-> | ->]; reflexivity.
Qed.

(** Of the listeners, only the error listener reacts to 'error'. *)
Lemma dispatch_error w err teardown :
  wired w ->
  dispatch JSON_parse (EvError err teardown) w = on_error err teardown w.
Proof.
  destruct w as [h d e p b l]. unfold wired. cbn [s_listeners].
  intros [-> | ->]; destruct h, teardown; reflexivity.
Qed.

Lemma turn_error w err teardown :
  wired w ->
  turn (dispatch JSON_parse (EvError err teardown)) w =
  fst (on_error err teardown w).
Proof.
  intros Hw. unfold turn. rewrite dispatch_error, on_error_returns by assumption.
  reflexivity.
Qed.

Lemma turn_close w :
  turn (dispatch JSON_parse EvResClose) w =
  set_listeners (filter (fun l => negb (is_pipe_to_res l)) (s_listeners w)) w.
Proof. reflexivity. Qed.

Lemma turn_idle w ev :
  flowing w = false ->
  is_end ev || match ev with EvData _ => true | _ => false end = true ->
  turn (dispatch JSON_parse ev) w = w.
Proof.
  intros Hf Hev. destruct ev; try discriminate; unfold turn; cbn;
    unfold bind, get, when; cbn; rewrite Hf; reflexivity.
Qed.

Lemma turn_data w chunk :
  flowing w = true -> wired w ->
  turn (dispatch JSON_parse (EvData chunk)) w =
  let w1 := set_concat_buf (concat_buf w ++ chunk) w in
  if res_piped w then log (FxResWrite chunk) w1 else w1.
Proof.
  destruct w as [h d e p b l]. unfold flowing, wired, res_piped. cbn.
  intros Hf [-> | ->]; destruct d, e; try discriminate; reflexivity.
Qed.

Lemma turn_end w :
  flowing w = true -> wired w ->
  turn (dispatch JSON_parse EvEnd) w =
  let w1 := set_ended true w in
  match JSON_parse (concat_buf w) with
  | Some v =>
      let w2 := log (FxCache v) w1 in
      if res_piped w then log FxResEnd w2 else w2
  | None => log (FxUncaught SyntaxError) w1
  end.
Proof.
  destruct w as [h d e p b l]. unfold flowing, wired, res_piped. cbn.
  intros Hf [-> | ->]; destruct d, e; try discriminate;
    unfold turn; cbn;
    unfold bind, get, when, modify, on_concat, JSON_parse_js, bind; cbn;
    destruct (JSON_parse b); reflexivity.
Qed.

(** Only the client closing [res] changes the listeners. *)
Lemma listeners_turn ev w :
  wired w -> is_close ev = false ->
  s_listeners (turn (dispatch JSON_parse ev) w) = s_listeners w.
Proof.
  intros Hw Hev. destruct ev as [c | c | | err t | ]; try discriminate.
  - rewrite turn_response by assumption. reflexivity.
  - destruct (flowing w) eqn:Hf.
    + rewrite turn_data by assumption. cbv zeta.
      destruct (res_piped w); reflexivity.
    + rewrite turn_idle by auto. reflexivity.
  - destruct (flowing w) eqn:Hf.
    + rewrite turn_end by assumption. cbv zeta.
      destruct (JSON_parse (concat_buf w)), (res_piped w); reflexivity.
    + rewrite turn_idle by auto. reflexivity.
  - rewrite turn_error, on_error_returns by assumption.
    destruct (hasErrored w), t; reflexivity.
Qed.

Lemma wired_turn ev w : wired w -> wired (turn (dispatch JSON_parse ev) w).
Proof.
  intros Hw. destruct (is_close ev) eqn:Hev.
  - destruct ev; try discriminate. rewrite turn_close.
    unfold wired in *. cbn. destruct Hw as [-> | ->]; cbn; auto.
  - unfold wired. rewrite listeners_turn by assumption. exact Hw.
Qed.

Lemma run_app evs1 evs2 w :
  run JSON_parse (evs1 ++ evs2) w = run JSON_parse evs2 (run JSON_parse evs1 w).
Proof. revert w. induction evs1 as [|ev evs1 IH]; intros w; cbn; auto. Qed.

Lemma wired_run evs w : wired w -> wired (run JSON_parse evs w).
Proof.
  revert w. induction evs as [|ev evs IH]; intros w Hw; cbn; auto.
  apply IH, wired_turn, Hw.
Qed.

Lemma wired_handler kind req : wired (turn (stream_route kind req) fresh).
Proof. rewrite handler_returns. left. reflexivity. Qed.

(** *** What one turn adds to each observation *)

Ltac turn_cases ev w :=
  destruct ev as [? | ? | | ? [?|] | ];
  [ rewrite turn_response by assumption
  | destruct (flowing w) eqn:Hflow;
    [ rewrite turn_data by assumption | rewrite turn_idle by auto ]
  | destruct (flowing w) eqn:Hflow;
    [ rewrite turn_end by assumption | rewrite turn_idle by auto ]
  | rewrite turn_error, on_error_returns by assumption
  | rewrite turn_error, on_error_returns by assumption
  | rewrite turn_close ].

Ltac split_ifs :=
  repeat match goal with
    | |- context [if ?b then _ else _] => destruct b eqn:?
    | |- context [match ?x with Some _ => _ | None => _ end] => destruct x eqn:?
    end.

Ltac project :=
  cbn [fx log set_hasErrored set_destroyed set_ended set_listeners
       set_concat_buf hasErrored s_destroyed s_ended s_listeners concat_buf
       fst snd
       is_error is_end is_close andb orb negb].

Ltac observe :=
  project; split_ifs; project; autorewrite with obs; cbn;
  rewrite ?app_nil_r; auto; try lia.

Lemma hasErrored_turn ev w :
  wired w -> hasErrored (turn (dispatch JSON_parse ev) w) = hasErrored w || is_error ev.
Proof.
  intros Hw. turn_cases ev w; observe; rewrite ?orb_false_r; auto.
Qed.

Lemma nexts_turn ev w :
  wired w ->
  nexts (fx (turn (dispatch JSON_parse ev) w)) =
  nexts (fx w) ++
    match ev with
    | EvError err _ => if hasErrored w then [] else [err]
    | _ => []
    end.
Proof. intros Hw. turn_cases ev w; observe. Qed.

Lemma destroys_turn ev w :
  wired w ->
  destroys (fx (turn (dispatch JSON_parse ev) w)) =
  destroys (fx w) + (if is_error ev then 1 else 0).
Proof. intros Hw. turn_cases ev w; observe. Qed.

Lemma statuses_turn ev w :
  wired w ->
  statuses (fx (turn (dispatch JSON_parse ev) w)) =
  statuses (fx w) ++
    match ev with EvResponse statusCode => [statusCode] | _ => [] end.
Proof. intros Hw. turn_cases ev w; observe. Qed.

Lemma cached_turn ev w :
  wired w ->
  cached (fx (turn (dispatch JSON_parse ev) w)) =
  cached (fx w) ++
    (if is_end ev && flowing w then to_list (JSON_parse (concat_buf w))
     else []).
Proof.
  intros Hw. turn_cases ev w; cbn [is_end andb];
    rewrite ?Hflow; cbn [to_list]; observe.
Qed.

Lemma uncaught_turn ev w :
  wired w ->
  uncaught (fx (turn (dispatch JSON_parse ev) w)) =
  uncaught (fx w) ++
    (if is_end ev && flowing w then
       match JSON_parse (concat_buf w) with
       | Some _ => []
       | None => [SyntaxError]
       end
     else []).
Proof.
  intros Hw. turn_cases ev w; cbn [is_end andb]; rewrite ?Hflow; observe.
Qed.

Lemma res_bytes_turn ev w :
  wired w ->
  res_bytes (fx (turn (dispatch JSON_parse ev) w)) =
  res_bytes (fx w) ++
    match ev with
    | EvData chunk =>
        if flowing w && res_piped w then chunk else []
    | _ => []
    end.
Proof.
  intros Hw. turn_cases ev w; rewrite ?Hflow; cbn [andb]; observe.
Qed.

Lemma concat_buf_turn ev w :
  wired w ->
  concat_buf (turn (dispatch JSON_parse ev) w) =
  concat_buf w ++
    match ev with
    | EvData chunk => if flowing w then chunk else []
    | _ => []
    end.
Proof.
  intros Hw. turn_cases ev w; rewrite ?Hflow; observe.
Qed.

(** A stream that has ended or was destroyed stays so; it stops flowing at
    its 'end' and at a teardown that completes. *)
Lemma flowing_turn ev w :
  wired w ->
  flowing (turn (dispatch JSON_parse ev) w) =
  flowing w &&
    match ev with
    | EvEnd | EvError _ None => false
    | _ => true
    end.
Proof.
  intros Hw.
  turn_cases ev w; unfold flowing in *; project; split_ifs; project;
    destruct (s_destroyed w), (s_ended w); auto.
Qed.

(** The log only grows. *)
Lemma fx_turn ev w :
  wired w -> exists added, fx (turn (dispatch JSON_parse ev) w) = fx w ++ added.
Proof.
  intros Hw. turn_cases ev w; cbn; split_ifs; cbn;
    rewrite <- ?app_assoc; eauto; exists []; rewrite app_nil_r; auto.
Qed.

Lemma fx_run evs w :
  wired w -> exists added, fx (run JSON_parse evs w) = fx w ++ added.
Proof.
  revert w. induction evs as [|ev evs IH]; intros w Hw; cbn.
  - exists []. rewrite app_nil_r. reflexivity.
  - destruct (fx_turn ev Hw) as [a1 H1].
    destruct (IH _ (wired_turn ev Hw)) as [a2 H2].
    exists (a1 ++ a2). rewrite H2, H1, app_assoc. reflexivity.
Qed.

(** *** Whole traces *)

Lemma hasErrored_run evs w :
  wired w -> hasErrored w = true -> hasErrored (run JSON_parse evs w) = true.
Proof.
  revert w. induction evs as [|ev evs IH]; intros w Hw He; cbn; auto.
  apply IH; [apply wired_turn, Hw|].
  rewrite hasErrored_turn, He by assumption. reflexivity.
Qed.

(** [next] receives the first error of the trace and nothing else. *)
Lemma nexts_run evs w :
  wired w ->
  nexts (fx (run JSON_parse evs w)) =
  nexts (fx w) ++ (if hasErrored w then [] else to_list (first_error evs)).
Proof.
  revert w. induction evs as [|ev evs IH]; intros w Hw; cbn [run first_error].
  - destruct (hasErrored w); cbn; rewrite app_nil_r; reflexivity.
  - rewrite IH by (apply wired_turn, Hw).
    rewrite nexts_turn, hasErrored_turn by assumption.
    rewrite <- app_assoc. f_equal.
    destruct (hasErrored w), ev; reflexivity.
Qed.

Lemma destroys_run evs w :
  wired w ->
  destroys (fx (run JSON_parse evs w)) =
  destroys (fx w) + List.length (filter is_error evs).
Proof.
  revert w. induction evs as [|ev evs IH]; intros w Hw; cbn [run filter].
  - cbn. lia.
  - rewrite IH by (apply wired_turn, Hw).
    rewrite destroys_turn by assumption.
    destruct (is_error ev); cbn [List.length]; lia.
Qed.

(** Once the stream no longer flows, nothing reaches the sinks. *)
Lemma idle_run evs w :
  wired w -> flowing w = false ->
  cached (fx (run JSON_parse evs w)) = cached (fx w) /\
  uncaught (fx (run JSON_parse evs w)) = uncaught (fx w) /\
  res_bytes (fx (run JSON_parse evs w)) = res_bytes (fx w) /\
  concat_buf (run JSON_parse evs w) = concat_buf w.
Proof.
  revert w. induction evs as [|ev evs IH]; intros w Hw Hf; cbn [run]; auto.
  assert (Hf' : flowing (turn (dispatch JSON_parse ev) w) = false)
    by (rewrite flowing_turn, Hf by assumption; reflexivity).
  destruct (IH _ (wired_turn ev Hw) Hf') as (-> & -> & -> & ->).
  rewrite cached_turn, uncaught_turn, res_bytes_turn, concat_buf_turn, Hf
    by assumption.
  rewrite andb_false_r. cbn [andb].
  destruct ev; rewrite ?app_nil_r; auto.
Qed.

(** The cache-commit callback runs only at the 'end' of the stream. *)
Lemma endless_run evs w :
  wired w -> existsb is_end evs = false ->
  cached (fx (run JSON_parse evs w)) = cached (fx w) /\
  uncaught (fx (run JSON_parse evs w)) = uncaught (fx w).
Proof.
  revert w. induction evs as [|ev evs IH]; intros w Hw Hne; cbn [run]; auto.
  cbn [existsb] in Hne. apply orb_false_iff in Hne as [Hev Hne].
  destruct (IH _ (wired_turn ev Hw) Hne) as (-> & ->).
  rewrite cached_turn, uncaught_turn, Hev by assumption.
  cbn [andb]. rewrite !app_nil_r. auto.
Qed.

(** A run of body chunks reaches concat-stream, and [res] while it is piped. *)
Lemma run_data chunks w :
  wired w -> flowing w = true ->
  run JSON_parse (map EvData chunks) w =
  mkWorld (hasErrored w) (s_destroyed w) (s_ended w) (s_listeners w)
    (concat_buf w ++ List.concat chunks)
    (fx w ++ if res_piped w
             then map FxResWrite chunks else []).
Proof.
  revert w. induction chunks as [|c chunks IH]; intros w Hw Hf; cbn [map run].
  - cbn [List.concat]. destruct w, (res_piped _); cbn; rewrite !app_nil_r;
      reflexivity.
  - assert (Hf' : flowing (turn (dispatch JSON_parse (EvData c)) w) = true)
      by (rewrite flowing_turn, Hf by assumption; reflexivity).
    rewrite IH by (auto using wired_turn).
    rewrite turn_data by assumption.
    destruct w as [h d e p b l]. unfold wired in Hw. cbn [s_listeners] in Hw.
    destruct Hw as [-> | ->]; cbn; rewrite <- ?app_assoc; reflexivity.
Qed.

(** The log of a response that drains cleanly with the client connected. *)
Lemma serve_drained kind req statusCode chunks :
  let w := serve JSON_parse kind req
             (EvResponse statusCode :: map EvData chunks ++ [EvEnd]) in
  concat_buf w = List.concat chunks /\
  fx w =
    [FxSetHeader "content-type" "application/json";
     FxDbStream kind (query req);
     FxStatus statusCode]
    ++ map FxResWrite chunks
    ++ match JSON_parse (List.concat chunks) with
       | Some v => [FxCache v; FxResEnd]
       | None => [FxUncaught SyntaxError]
       end.
Proof.
  unfold serve. rewrite handler_returns. cbn [run].
  rewrite turn_response, run_app, run_data
    by first [reflexivity | left; reflexivity].
  cbn [run].
  rewrite turn_end by first [reflexivity | left; reflexivity].
  cbn. destruct (JSON_parse (List.concat chunks)); cbn;
    rewrite <- ?app_assoc; auto.
Qed.

(** The log when the client closes [res] between two runs of chunks and the
    upstream then completes. *)
Lemma serve_client_closed kind req statusCode chunks1 chunks2 :
  let w := serve JSON_parse kind req
             (EvResponse statusCode :: map EvData chunks1 ++
              EvResClose :: map EvData chunks2 ++ [EvEnd]) in
  concat_buf w = List.concat (chunks1 ++ chunks2) /\
  fx w =
    [FxSetHeader "content-type" "application/json";
     FxDbStream kind (query req);
     FxStatus statusCode]
    ++ map FxResWrite chunks1
    ++ match JSON_parse (List.concat (chunks1 ++ chunks2)) with
       | Some v => [FxCache v]
       | None => [FxUncaught SyntaxError]
       end.
Proof.
  unfold serve. rewrite handler_returns. cbn [run].
  rewrite turn_response, run_app, run_data
    by first [reflexivity | left; reflexivity].
  cbn [run]. rewrite turn_close.
  cbn [s_listeners log filter is_pipe_to_res negb set_listeners set_concat_buf
       hasErrored s_destroyed s_ended concat_buf fx res_piped existsb orb app].
  rewrite run_app, run_data by first [reflexivity | right; reflexivity].
  cbn [run].
  rewrite turn_end by first [reflexivity | right; reflexivity].
  cbn. rewrite List.concat_app.
  destruct (JSON_parse (List.concat chunks1 ++ List.concat chunks2)); cbn;
    rewrite ?app_nil_r, <- ?app_assoc; auto.
Qed.

End StreamingFacts.

(** ** Invariants of a streaming request *)

Lemma db_calls_app l1 l2 : db_calls (l1 ++ l2) = db_calls l1 ++ db_calls l2.
Proof. apply filter_app. Qed.

Lemma headers_set_app l1 l2 :
  headers_set (l1 ++ l2) = headers_set l1 ++ headers_set l2.
Proof. apply flat_map_app. Qed.

Section StreamingInvariants.

Variable JSON_parse : Buffer -> option Json.

(** Whether [res] stays piped: only the client closing it unpipes it. *)
Lemma res_piped_turn ev w :
  wired w ->
  res_piped (turn (dispatch JSON_parse ev) w) = res_piped w && negb (is_close ev).
Proof.
  intros Hw. destruct (is_close ev) eqn:Hev.
  - destruct ev; try discriminate. rewrite turn_close.
    unfold res_piped, wired in *. cbn [s_listeners set_listeners].
    destruct Hw as [-> | ->]; reflexivity.
  - unfold res_piped. rewrite listeners_turn by assumption.
    rewrite andb_true_r. reflexivity.
Qed.

(** A turn adds no database call and sets no header. *)
Lemma quiet_turn ev w :
  wired w ->
  db_calls (fx (turn (dispatch JSON_parse ev) w)) = db_calls (fx w) /\
  headers_set (fx (turn (dispatch JSON_parse ev) w)) = headers_set (fx w).
Proof.
  intros Hw. destruct ev as [c | c | | err [t|] | ].
  - rewrite turn_response by assumption. cbn [fx log].
    rewrite db_calls_app, headers_set_app, !app_nil_r. auto.
  - destruct (flowing w) eqn:Hf.
    + rewrite turn_data by assumption. cbv zeta.
      destruct (res_piped w); cbn [fx log set_concat_buf];
        rewrite ?db_calls_app, ?headers_set_app, ?app_nil_r; auto.
    + rewrite turn_idle by auto. auto.
  - destruct (flowing w) eqn:Hf.
    + rewrite turn_end by assumption. cbv zeta.
      destruct (JSON_parse (concat_buf w)), (res_piped w);
        cbn [fx log set_ended];
        rewrite ?db_calls_app, ?headers_set_app, ?app_nil_r; auto.
    + rewrite turn_idle by auto. auto.
  - rewrite turn_error, on_error_returns by assumption.
    destruct (hasErrored w); cbn [fx log set_hasErrored set_destroyed fst];
      rewrite ?db_calls_app, ?headers_set_app, ?app_nil_r; auto.
  - rewrite turn_error, on_error_returns by assumption.
    destruct (hasErrored w); cbn [fx log set_hasErrored set_destroyed fst];
      rewrite ?db_calls_app, ?headers_set_app, ?app_nil_r; auto.
  - rewrite turn_close. auto.
Qed.

Lemma quiet_run evs w :
  wired w ->
  db_calls (fx (run JSON_parse evs w)) = db_calls (fx w) /\
  headers_set (fx (run JSON_parse evs w)) = headers_set (fx w).
Proof.
  revert w. induction evs as [|ev evs IH]; intros w Hw; cbn [run]; auto.
  destruct (IH _ (wired_turn JSON_parse ev Hw)) as [-> ->].
  apply quiet_turn, Hw.
Qed.

Lemma statuses_codes_run evs w :
  wired w ->
  statuses (fx (run JSON_parse evs w)) = statuses (fx w) ++ response_codes evs.
Proof.
  revert w. induction evs as [|ev evs IH]; intros w Hw;
    cbn [run response_codes flat_map].
  - symmetry. apply app_nil_r.
  - rewrite IH by (apply wired_turn, Hw).
    rewrite statuses_turn by assumption. rewrite <- app_assoc.
    reflexivity.
Qed.

Lemma committed_turn ev w :
  wired w -> committed JSON_parse w ->
  committed JSON_parse (turn (dispatch JSON_parse ev) w).
Proof.
  intros Hw [Hflow Hdone]. unfold committed.
  rewrite cached_turn, uncaught_turn, concat_buf_turn, flowing_turn
    by assumption.
  destruct (flowing w) eqn:Hf.
  - destruct (Hflow eq_refl) as [Hc Hu]. rewrite Hc, Hu. cbn [app].
    destruct ev as [c | c | | err [t|] | ]; cbn [is_end andb];
      rewrite ?app_nil_r; try (split; [auto | left; reflexivity]).
    destruct (JSON_parse (concat_buf w)) as [v|] eqn:Hp; cbn [to_list].
    + split; [discriminate|]. right. split; [reflexivity|].
      exists v. auto.
    + split; [discriminate|]. left. reflexivity.
  - rewrite andb_false_r. cbn [andb]. rewrite !app_nil_r.
    split; [discriminate|].
    destruct ev; rewrite ?app_nil_r; exact Hdone.
Qed.

Lemma committed_run evs w :
  wired w -> committed JSON_parse w -> committed JSON_parse (run JSON_parse evs w).
Proof.
  revert w. induction evs as [|ev evs IH]; intros w Hw Hc; cbn [run]; auto.
  apply IH; [apply wired_turn, Hw | apply committed_turn; assumption].
Qed.

Lemma teed_turn ev w :
  wired w -> teed w -> teed (turn (dispatch JSON_parse ev) w).
Proof.
  intros Hw (tail & Hbuf & Hpiped). unfold teed.
  rewrite concat_buf_turn, res_bytes_turn, res_piped_turn by assumption.
  destruct ev as [c | c | | err t | ]; cbn [is_close negb];
    rewrite ?andb_true_r, ?andb_false_r, ?app_nil_r;
    try (exists tail; split; [exact Hbuf | first [exact Hpiped | discriminate]]).
  destruct (flowing w); cbn [andb];
    [| rewrite !app_nil_r; exists tail; auto].
  destruct (res_piped w) eqn:Hp.
  - rewrite (Hpiped eq_refl), app_nil_r in Hbuf. exists [].
    rewrite Hbuf, app_nil_r. auto.
  - exists (tail ++ c). rewrite app_nil_r, Hbuf, app_assoc.
    split; [reflexivity | discriminate].
Qed.

Lemma teed_run evs w : wired w -> teed w -> teed (run JSON_parse evs w).
Proof.
  revert w. induction evs as [|ev evs IH]; intros w Hw Ht; cbn [run]; auto.
  apply IH; [apply wired_turn, Hw | apply teed_turn; assumption].
Qed.

Lemma res_piped_run evs w :
  wired w -> existsb is_close evs = false ->
  res_piped (run JSON_parse evs w) = res_piped w.
Proof.
  revert w. induction evs as [|ev evs IH]; intros w Hw Hne; cbn [run]; auto.
  cbn [existsb] in Hne. apply orb_false_iff in Hne as [Hev Hne].
  rewrite IH by (auto using wired_turn).
  rewrite res_piped_turn, Hev by assumption. apply andb_true_r.
Qed.

End StreamingInvariants.

(** ** Lists split at an element *)

Lemma split_after_prefix {A} (prefix added before after : list A) (x : A) :
  ~ In x prefix ->
  prefix ++ added = before ++ x :: after ->
  exists middle, before = prefix ++ middle.
Proof.
  revert before. induction prefix as [|p prefix IH]; intros before Hx Heq.
  - exists before. reflexivity.
  - destruct before as [|b before]; cbn in Heq.
    + injection Heq as -> _. exfalso. apply Hx. left. reflexivity.
    + injection Heq as -> Heq.
      destruct (IH before) as [middle ->]; auto.
      * intros Hin. apply Hx. right. exact Hin.
      * exists middle. reflexivity.
Qed.

Lemma statuses_run JSON_parse evs w :
  wired w -> existsb is_response evs = false ->
  statuses (fx (run JSON_parse evs w)) = statuses (fx w).
Proof.
  revert w. induction evs as [|ev evs IH]; intros w Hw Hne; cbn [run]; auto.
  cbn [existsb] in Hne. apply orb_false_iff in Hne as [Hev Hne].
  rewrite IH by (auto using wired_turn).
  rewrite statuses_turn by assumption.
  destruct ev; try discriminate; apply app_nil_r.
Qed.

(** [hasErrored] is set exactly when an error event has been seen. *)
Lemma hasErrored_first JSON_parse evs w :
  wired w -> hasErrored w = false ->
  hasErrored (run JSON_parse evs w) =
  match first_error evs with Some _ => true | None => false end.
Proof.
  revert w. induction evs as [|ev evs IH]; intros w Hw H0; cbn [run]; auto.
  pose proof (hasErrored_turn JSON_parse ev Hw) as Ht. rewrite H0 in Ht.
  destruct ev; cbn [first_error]; cbn in Ht;
    try (apply IH; [apply wired_turn, Hw | exact Ht]).
  apply hasErrored_run; [apply wired_turn, Hw | exact Ht].
Qed.

(** A run of writes to [res] carries the chunks and nothing else. *)
Lemma res_bytes_writes chunks :
  res_bytes (map FxResWrite chunks) = List.concat chunks.
Proof. induction chunks as [|c chunks IH]; cbn; [|rewrite <- IH]; reflexivity. Qed.

Lemma writes_only chunks :
  cached (map FxResWrite chunks) = [] /\
  nexts (map FxResWrite chunks) = [] /\
  statuses (map FxResWrite chunks) = [] /\
  destroys (map FxResWrite chunks) = 0.
Proof. induction chunks as [|c chunks IH]; cbn; auto. Qed.

(** ** GET /preprint and GET /action *)

(** C1: on the streaming search endpoints, however many 'error' events the
    upstream stream emits, [next(err)] is called at most once for the
    request: it receives the first error and no later one. *)
Theorem error_signalled_at_most_once
  (JSON_parse : Buffer -> option Json) (kind : StreamKind) (req : Request)
  (evs : list Event) :
  nexts (fx (serve JSON_parse kind req evs)) = to_list (first_error evs) /\
  List.length (nexts (fx (serve JSON_parse kind req evs))) <= 1.
Proof.
  assert (H : nexts (fx (serve JSON_parse kind req evs)) =
              to_list (first_error evs)).
  { unfold serve. rewrite nexts_run by apply wired_handler.
    rewrite handler_returns. reflexivity. }
  split; [exact H|].
  rewrite H. destruct (first_error evs); cbn; lia.
Qed.

(** C2: when the upstream answers, sends its chunks and ends, with no error
    and the client connected, the buffer concat-stream has assembled equals
    byte for byte what was written to [res]: both are the chunks in arrival
    order, and the cache-commit callback parses exactly those bytes. *)
Theorem cache_buffer_equals_response_bytes
  (JSON_parse : Buffer -> option Json) (kind : StreamKind) (req : Request)
  (statusCode : nat) (chunks : list Chunk) :
  let w := serve JSON_parse kind req
             (EvResponse statusCode :: map EvData chunks ++ [EvEnd]) in
  concat_buf w = res_bytes (fx w) /\
  res_bytes (fx w) = List.concat chunks /\
  cached (fx w) = to_list (JSON_parse (res_bytes (fx w))).
Proof.
  destruct (serve_drained JSON_parse kind req statusCode chunks) as [Hb Hl].
  cbv zeta. rewrite Hb, Hl. autorewrite with obs. cbn.
  destruct (writes_only chunks) as (Hc & _).
  rewrite res_bytes_writes, Hc.
  destruct (JSON_parse (List.concat chunks)) eqn:Hp; cbn;
    rewrite app_nil_r, Hp; auto.
Qed.

(** C3: at any point of a request, an 'error' event makes the listener attempt
    [s.destroy()] and return normally whether or not the teardown throws:
    nothing escapes, and [next] has received only the first error of the
    request, now and after any further events. *)
Theorem teardown_error_is_swallowed
  (JSON_parse : Buffer -> option Json) (kind : StreamKind) (req : Request)
  (evs : list Event) (err : Err) (teardown : option Err) (later : list Event) :
  let w := serve JSON_parse kind req evs in
  let w' := turn (dispatch JSON_parse (EvError err teardown)) w in
  let original := match first_error evs with Some e => e | None => err end in
  snd (dispatch JSON_parse (EvError err teardown) w) = Ret tt /\
  destroys (fx w') = S (destroys (fx w)) /\
  uncaught (fx w') = uncaught (fx w) /\
  nexts (fx w') = [original] /\
  nexts (fx (run JSON_parse later w')) = [original].
Proof.
  cbv zeta.
  assert (Hw : wired (serve JSON_parse kind req evs))
    by apply wired_run, wired_handler.
  assert (Hn : nexts (fx (turn (dispatch JSON_parse (EvError err teardown))
                            (serve JSON_parse kind req evs))) =
               [match first_error evs with Some e => e | None => err end]).
  { rewrite nexts_turn by assumption. unfold serve in *.
    rewrite nexts_run by apply wired_handler.
    assert (He := hasErrored_first JSON_parse evs (wired_handler kind req)).
    rewrite He by (rewrite handler_returns; reflexivity).
    rewrite handler_returns. cbn.
    destruct (first_error evs); reflexivity. }
  repeat split.
  - rewrite dispatch_error, on_error_returns by assumption. reflexivity.
  - rewrite destroys_turn by assumption. cbn. lia.
  - rewrite uncaught_turn by assumption. cbn. apply app_nil_r.
  - exact Hn.
  - rewrite nexts_run by (apply wired_turn, Hw). rewrite Hn.
    rewrite hasErrored_turn by assumption. rewrite orb_true_r. reflexivity.
Qed.

(** C4: when the upstream emits its 'response' event first, the log of the
    request starts with the content-type header being set, the database
    stream being opened and the status being set to the upstream's status
    code; no header and no status is set after that, and every chunk written
    to [res] comes after these three calls.  This holds whether or not there
    is a body. *)
Theorem head_set_before_body
  (JSON_parse : Buffer -> option Json) (kind : StreamKind) (req : Request)
  (statusCode : nat) (rest : list Event) :
  existsb is_response rest = false ->
  let w := serve JSON_parse kind req (EvResponse statusCode :: rest) in
  let head := [FxSetHeader "content-type" "application/json";
               FxDbStream kind (query req);
               FxStatus statusCode] in
  exists later,
    fx w = head ++ later /\
    headers_set later = [] /\
    statuses later = [] /\
    forall before chunk after,
      fx w = before ++ FxResWrite chunk :: after ->
      (exists middle, before = head ++ middle) /\
      In (FxSetHeader "content-type" "application/json") before /\
      statuses before = [statusCode].
Proof.
  intros Hone. cbv zeta. unfold serve. cbn [run].
  rewrite handler_returns.
  rewrite turn_response by (left; reflexivity).
  set (w1 := log (FxStatus statusCode) _).
  assert (Hw1 : wired w1) by (left; reflexivity).
  assert (Hfx1 : fx w1 =
                 [FxSetHeader "content-type" "application/json";
                  FxDbStream kind (query req); FxStatus statusCode])
    by reflexivity.
  assert (Hst : statuses (fx (run JSON_parse rest w1)) = [statusCode])
    by (rewrite statuses_run by assumption; reflexivity).
  destruct (quiet_run JSON_parse rest Hw1) as [_ Hhd].
  destruct (fx_run JSON_parse rest Hw1) as [later Hlater].
  rewrite Hlater, Hfx1 in Hst, Hhd. rewrite Hlater, Hfx1.
  rewrite headers_set_app in Hhd. rewrite statuses_app in Hst.
  change (("content-type", "application/json") :: headers_set later =
          [("content-type", "application/json")]) in Hhd.
  change (statusCode :: statuses later = [statusCode]) in Hst.
  injection Hhd as Hhd. injection Hst as Hst.
  exists later. split; [reflexivity|].
  split; [exact Hhd|]. split; [exact Hst|].
  intros before chunk after Hsplit.
  pose proof Hsplit as Hwhole.
  apply split_after_prefix in Hsplit as [middle ->].
  - split; [exists middle; reflexivity|]. split; [cbn; auto|].
    rewrite <- app_assoc in Hwhole. apply app_inv_head in Hwhole.
    rewrite Hwhole, statuses_app in Hst. apply app_eq_nil in Hst as [Hst _].
    rewrite statuses_app, Hst. reflexivity.
  - cbn. intros [E | [E | [E | []]]]; discriminate.
Qed.

Lemma head_set_before_body_witness :
  let head kind statusCode :=
    [FxSetHeader "content-type" "application/json";
     FxDbStream kind (query sample_request);
     FxStatus statusCode] in
  let shown kind statusCode rest :=
    let w := serve JsonText.JSON_parse kind sample_request
               (EvResponse statusCode :: rest) in
    exists later,
      fx w = head kind statusCode ++ later /\
      headers_set later = [] /\
      statuses later = [] /\
      forall before chunk after,
        fx w = before ++ FxResWrite chunk :: after ->
        (exists middle, before = head kind statusCode ++ middle) /\
        In (FxSetHeader "content-type" "application/json") before /\
        statuses before = [statusCode] in
  (existsb is_response [EvData (bytes "[1,"); EvData (bytes "2]")] = false /\
   shown Preprints 200 [EvData (bytes "[1,"); EvData (bytes "2]")]) /\
  (existsb is_response [EvEnd] = false /\ shown Actions 404 [EvEnd]).
Proof.
  cbv zeta. split; (split; [reflexivity|]).
  - apply (@head_set_before_body JsonText.JSON_parse Preprints sample_request
             200 [EvData (bytes "[1,"); EvData (bytes "2]")]).
    reflexivity.
  - apply (@head_set_before_body JsonText.JSON_parse Actions sample_request
             404 [EvEnd]).
    reflexivity.
Defined.

(** C5, as the code has it: when the upstream emits 'error' before it has
    ended, and either the teardown completes or the stream emits no 'end'
    after the error, the cache-commit callback is never invoked: [req.cache]
    is not called. *)
Theorem no_cache_write_on_error
  (JSON_parse : Buffer -> option Json) (kind : StreamKind) (req : Request)
  (earlier : list Event) (err : Err) (teardown : option Err)
  (later : list Event) :
  existsb is_end earlier = false ->
  teardown = None \/ existsb is_end later = false ->
  cached (fx (serve JSON_parse kind req
                (earlier ++ EvError err teardown :: later))) = [].
Proof.
  intros Hpre Hpost. unfold serve. rewrite run_app. cbn [run].
  set (w0 := turn (stream_route kind req) fresh).
  assert (Hw0 : wired w0) by apply wired_handler.
  set (w1 := run JSON_parse earlier w0).
  assert (Hw1 : wired w1) by (apply wired_run, Hw0).
  set (w2 := turn (dispatch JSON_parse (EvError err teardown)) w1).
  assert (Hw2 : wired w2) by (apply wired_turn, Hw1).
  assert (Hc2 : cached (fx w2) = []).
  { unfold w2. rewrite cached_turn by assumption. cbn.
    rewrite app_nil_r. unfold w1.
    destruct (endless_run JSON_parse earlier Hw0 Hpre) as [-> _].
    unfold w0. rewrite handler_returns. reflexivity. }
  destruct Hpost as [-> | Hpost].
  - assert (Hf : flowing w2 = false).
    { unfold w2. rewrite flowing_turn by assumption. apply andb_false_r. }
    destruct (idle_run JSON_parse later Hw2 Hf) as [-> _]. exact Hc2.
  - destruct (endless_run JSON_parse later Hw2 Hpost) as [-> _]. exact Hc2.
Qed.

Lemma no_cache_write_on_error_witness :
  let earlier := [EvResponse 200; EvData (bytes "[1,")] in
  let later := [EvData (bytes "2]"); EvEnd] in
  existsb is_end earlier = false /\
  cached (fx (serve JsonText.JSON_parse Actions sample_request
                (earlier ++ EvError (OtherError "ECONNRESET") None :: later)))
  = [].
Proof.
  cbv zeta. split; [reflexivity|].
  apply (@no_cache_write_on_error JsonText.JSON_parse Actions sample_request
           [EvResponse 200; EvData (bytes "[1,")]
           (OtherError "ECONNRESET") None
           [EvData (bytes "2]"); EvEnd]).
  - reflexivity.
  - left. reflexivity.
Defined.

(** C5, as the claim states it, fails: the commit callback hangs on the
    stream's 'end' alone and does not look at [hasErrored].  A stream whose
    teardown threw and which goes on to its 'end', and a stream whose error
    comes after its 'end', both have their error forwarded to [next] and
    their body committed to the cache. *)
Lemma error_and_cache_write_together :
  let teardown_threw :=
    serve JsonText.JSON_parse Preprints sample_request
      [EvResponse 200; EvData (bytes "[1,");
       EvError (OtherError "ECONNRESET") (Some (OtherError "TypeError"));
       EvData (bytes "2]"); EvEnd] in
  let error_after_end :=
    serve JsonText.JSON_parse Actions sample_request
      [EvResponse 200; EvData (bytes "[1,2]"); EvEnd;
       EvError (OtherError "ECONNRESET") None] in
  (nexts (fx teardown_threw) = [OtherError "ECONNRESET"] /\
   cached (fx teardown_threw) = [JArr [JNum "1"; JNum "2"]]) /\
  (nexts (fx error_after_end) = [OtherError "ECONNRESET"] /\
   cached (fx error_after_end) = [JArr [JNum "1"; JNum "2"]]).
Proof. cbv zeta. repeat split; reflexivity. Qed.

(** C6, as the code has it: when the body of a cleanly drained stream does not
    parse, [req.cache] is not called and [next] is not called, and every
    upstream byte was written to [res] under the upstream's status code. *)
Theorem parse_failure_suppresses_cache_write
  (JSON_parse : Buffer -> option Json) (kind : StreamKind) (req : Request)
  (statusCode : nat) (chunks : list Chunk) :
  JSON_parse (List.concat chunks) = None ->
  let w := serve JSON_parse kind req
             (EvResponse statusCode :: map EvData chunks ++ [EvEnd]) in
  cached (fx w) = [] /\
  nexts (fx w) = [] /\
  res_bytes (fx w) = List.concat chunks /\
  statuses (fx w) = [statusCode].
Proof.
  intros Hp.
  destruct (serve_drained JSON_parse kind req statusCode chunks) as [_ Hl].
  cbv zeta. rewrite Hl, Hp. autorewrite with obs.
  destruct (writes_only chunks) as (-> & -> & -> & _).
  rewrite res_bytes_writes. cbn. rewrite ?app_nil_r. auto.
Qed.

Lemma parse_failure_suppresses_cache_write_witness :
  let chunks := [bytes "[1,"; bytes "2"] in
  let w := serve JsonText.JSON_parse Preprints sample_request
             (EvResponse 200 :: map EvData chunks ++ [EvEnd]) in
  JsonText.JSON_parse (List.concat chunks) = None /\
  cached (fx w) = [] /\
  nexts (fx w) = [] /\
  res_bytes (fx w) = List.concat chunks /\
  statuses (fx w) = [200].
Proof.
  cbv zeta. split; [reflexivity|].
  apply (@parse_failure_suppresses_cache_write JsonText.JSON_parse Preprints
           sample_request 200 [bytes "[1,"; bytes "2"]).
  reflexivity.
Defined.

(** C6, as the claim states it, fails: a body cut short after [[1,] drains
    cleanly, [JSON.parse] throws inside the cache-commit callback, and the
    exception leaves the callback uncaught instead of being absorbed. *)
Lemma parse_failure_is_uncaught :
  let w := serve JsonText.JSON_parse Preprints sample_request
             [EvResponse 200; EvData (bytes "[1,"); EvEnd] in
  JsonText.JSON_parse (bytes "[1,") = None /\
  uncaught (fx w) = [SyntaxError].
Proof. cbv zeta. split; reflexivity. Qed.

(** C7, as the code has it: when the client closes [res] before the upstream
    completes, the handler never calls [s.destroy()], [res] receives no
    further chunk, concat-stream keeps receiving every chunk, and at the
    upstream's 'end' the cache-commit callback parses the complete body. *)
Theorem client_close_keeps_buffering
  (JSON_parse : Buffer -> option Json) (kind : StreamKind) (req : Request)
  (statusCode : nat) (chunks1 chunks2 : list Chunk) :
  let w := serve JSON_parse kind req
             (EvResponse statusCode :: map EvData chunks1 ++
              EvResClose :: map EvData chunks2 ++ [EvEnd]) in
  destroys (fx w) = 0 /\
  res_bytes (fx w) = List.concat chunks1 /\
  concat_buf w = List.concat (chunks1 ++ chunks2) /\
  cached (fx w) = to_list (JSON_parse (List.concat (chunks1 ++ chunks2))).
Proof.
  destruct (serve_client_closed JSON_parse kind req statusCode chunks1 chunks2)
    as [Hb Hl].
  cbv zeta. rewrite Hb, Hl. autorewrite with obs.
  destruct (writes_only chunks1) as (-> & _ & _ & ->).
  rewrite res_bytes_writes.
  destruct (JSON_parse (List.concat (chunks1 ++ chunks2))); cbn;
    rewrite ?app_nil_r; auto.
Qed.

(** C7, as the claim states it, fails: the client closes [res] after the first
    chunk; the upstream is not destroyed and the complete body is committed
    to the cache. *)
Lemma client_close_still_caches :
  let w := serve JsonText.JSON_parse Preprints sample_request
             [EvResponse 200; EvData (bytes "[1,"); EvResClose;
              EvData (bytes "2]"); EvEnd] in
  destroys (fx w) = 0 /\
  cached (fx w) = [JArr [JNum "1"; JNum "2"]].
Proof. cbv zeta. split; reflexivity. Qed.

(** ** GET /resolve *)

(** C8: the handler forwards a 400 error and never calls [resolve] exactly
    when the identifier parameter is missing or the empty string; otherwise
    it calls [resolve] with the identifier and the config, and then either
    sends the result as JSON or forwards the error. *)
Theorem resolve_requires_identifier
  (resolve : option QueryValue -> Config -> Err + Json) (req : Request) :
  let identifier := query_get (query req) "identifier" in
  let w := turn (get_resolve resolve req) fresh in
  (truthy identifier = false <->
   identifier = None \/ identifier = Some (QStr "")) /\
  existsb is_resolve_call (fx w) = truthy identifier /\
  fx w =
    if truthy identifier then
      FxResolve identifier (config req) ::
        match resolve identifier (config req) with
        | inr data => [FxJson data]
        | inl err => [FxNext err]
        end
    else [FxNext (createError 400 "missing identifier query string parameter")].
Proof.
  cbv zeta. split; [|].
  - destruct (query_get (query req) "identifier") as [[[|c s] | items | fields]|];
      cbn; split; intros H; auto; try discriminate;
      destruct H as [H | H]; discriminate.
  - unfold get_resolve, turn, await_resolve, try_catch, bind, emit, modify.
    destruct (truthy (query_get (query req) "identifier")); cbn; auto.
    destruct (resolve _ _); cbn; auto.
Qed.

(** C9: GET /review, GET /request, GET /user and GET /role forward a 500
    'Not implemented yet' error whatever the request, and call nothing else:
    the database is not invoked. *)
Theorem search_routes_not_implemented (r : SearchRoute) (req : Request) :
  let w := turn (search_route r req) fresh in
  fx w = [FxNext (createError 500 "Not implemented yet")] /\
  existsb is_db_call (fx w) = false.
Proof. destruct r; split; reflexivity. Qed.

(** ** POST /action *)

(** C10: an unauthenticated request gets a 401 'Login required' error and
    [req.db.post] is not called; an authenticated one calls [req.db.post] on
    the body and the user, then forwards the error if that throws, sending no
    JSON, and otherwise sends exactly the document it returned. *)
Theorem post_action_requires_login
  (db_post : Json -> option User -> Err + Json) (req : Request) :
  let w := turn (post_action db_post req) fresh in
  existsb is_db_call (fx w) = isAuthenticated req /\
  fx w =
    if isAuthenticated req then
      FxDbPost (body req) (user req) ::
        match db_post (body req) (user req) with
        | inr doc => [FxJson doc]
        | inl err => [FxNext err]
        end
    else [FxNext (createError 401 "Login required")].
Proof.
  cbv zeta.
  unfold post_action, turn, await_db_post, try_catch, bind, emit, modify.
  destruct (isAuthenticated req); cbn; auto.
  destruct (db_post _ _); cbn; auto.
Qed.

(** * Further properties of the streaming endpoints *)


(** X1: whatever the upstream and the client do, [req.cache] is called at most
    once, never together with an uncaught parse failure, and the value it
    receives is the parse of everything concat-stream has buffered. *)
Theorem cached_body_is_whole_buffer
  (JSON_parse : Buffer -> option Json) (kind : StreamKind) (req : Request)
  (evs : list Event) :
  let w := serve JSON_parse kind req evs in
  cached (fx w) = [] \/
  (uncaught (fx w) = [] /\
   exists v, JSON_parse (concat_buf w) = Some v /\ cached (fx w) = [v]).
Proof.
  cbv zeta. unfold serve.
  apply committed_run; [apply wired_handler|].
  rewrite handler_returns. split; [split; reflexivity | left; reflexivity].
Qed.

(** X2: at every point of every request, the bytes written to [res] are a
    prefix of the bytes buffered for the cache: the client never receives a
    byte the buffer lacks. *)
Theorem client_bytes_prefix_of_buffer
  (JSON_parse : Buffer -> option Json) (kind : StreamKind) (req : Request)
  (evs : list Event) :
  let w := serve JSON_parse kind req evs in
  exists tail, concat_buf w = res_bytes (fx w) ++ tail.
Proof.
  cbv zeta. unfold serve.
  destruct (teed_run JSON_parse evs (wired_handler kind req)) as (tail & H & _).
  - rewrite handler_returns. exists []. split; reflexivity.
  - exists tail. exact H.
Qed.

(** X3: as long as the client has not closed [res], the buffer and the bytes
    written to [res] are equal, also while the stream is still running and
    after errors. *)
Theorem buffer_equals_client_bytes_while_connected
  (JSON_parse : Buffer -> option Json) (kind : StreamKind) (req : Request)
  (evs : list Event) :
  existsb is_close evs = false ->
  let w := serve JSON_parse kind req evs in
  concat_buf w = res_bytes (fx w).
Proof.
  intros Hopen. cbv zeta. unfold serve.
  destruct (teed_run JSON_parse evs (wired_handler kind req)) as (tail & H & Ht).
  - rewrite handler_returns. exists []. split; reflexivity.
  - rewrite H, Ht, app_nil_r; [reflexivity|].
    rewrite res_piped_run by (auto using wired_handler).
    rewrite handler_returns. reflexivity.
Qed.

Lemma buffer_equals_client_bytes_while_connected_witness :
  let evs := [EvResponse 200; EvData (bytes "[1,");
              EvError (OtherError "ECONNRESET") (Some (OtherError "EBADF"));
              EvData (bytes "2")] in
  let w := serve JsonText.JSON_parse Preprints sample_request evs in
  existsb is_close evs = false /\
  concat_buf w = bytes "[1,2" /\
  concat_buf w = res_bytes (fx w).
Proof.
  cbv zeta. split; [reflexivity|]. split; [reflexivity|].
  apply (@buffer_equals_client_bytes_while_connected JsonText.JSON_parse
           Preprints sample_request
           [EvResponse 200; EvData (bytes "[1,");
            EvError (OtherError "ECONNRESET") (Some (OtherError "EBADF"));
            EvData (bytes "2")]).
  reflexivity.
Defined.

(** X4: [s.destroy()] is attempted once for every 'error' event of the
    request, also for the errors that are not forwarded to [next]. *)
Theorem teardown_attempted_per_error
  (JSON_parse : Buffer -> option Json) (kind : StreamKind) (req : Request)
  (evs : list Event) :
  destroys (fx (serve JSON_parse kind req evs)) =
  List.length (filter is_error evs).
Proof.
  unfold serve. rewrite destroys_run by apply wired_handler.
  rewrite handler_returns. reflexivity.
Qed.

(** X5: whatever the stream does afterwards, the handler has queried the
    database exactly once, with the parsed query of the request, and has set
    exactly one header, the JSON content type, before that query. *)
Theorem one_query_one_header
  (JSON_parse : Buffer -> option Json) (kind : StreamKind) (req : Request)
  (evs : list Event) :
  let w := serve JSON_parse kind req evs in
  (exists later,
     fx w = FxSetHeader "content-type" "application/json"
            :: FxDbStream kind (query req) :: later) /\
  db_calls (fx w) = [FxDbStream kind (query req)] /\
  headers_set (fx w) = [("content-type", "application/json")].
Proof.
  cbv zeta. unfold serve.
  pose proof (wired_handler kind req) as Hw.
  destruct (quiet_run JSON_parse evs Hw) as [-> ->].
  destruct (fx_run JSON_parse evs Hw) as [later ->].
  rewrite handler_returns. cbn. eauto.
Qed.

(** X6: the statuses set on [res] are exactly the status codes of the
    upstream's 'response' events, in order: the handler sets no status of its
    own, on the error path either. *)
Theorem status_only_from_upstream
  (JSON_parse : Buffer -> option Json) (kind : StreamKind) (req : Request)
  (evs : list Event) :
  statuses (fx (serve JSON_parse kind req evs)) = response_codes evs.
Proof.
  unfold serve. rewrite statuses_codes_run by apply wired_handler.
  rewrite handler_returns. reflexivity.
Qed.

(** * The other handlers of the router *)

(** X7: POST /action, GET /resolve and the four collection routes settle every
    request exactly once, by one JSON reply or one forwarded error, never both
    and never neither, and no exception leaves the handler. *)
Theorem one_outcome_per_request
  (db_post : Json -> option User -> Err + Json)
  (resolve : option QueryValue -> Config -> Err + Json)
  (r : SearchRoute) (req : Request) :
  let posted := post_action db_post req fresh in
  let resolved := get_resolve resolve req fresh in
  let searched := search_route r req fresh in
  (List.length (outcomes (fx (fst posted))) = 1 /\ snd posted = Ret tt) /\
  (List.length (outcomes (fx (fst resolved))) = 1 /\ snd resolved = Ret tt) /\
  (List.length (outcomes (fx (fst searched))) = 1 /\ snd searched = Ret tt).
Proof.
  cbv zeta. repeat split.
  - unfold post_action, await_db_post, try_catch, bind, emit, modify.
    destruct (isAuthenticated req); cbn; auto.
    destruct (db_post _ _); reflexivity.
  - unfold post_action, await_db_post, try_catch, bind, emit, modify.
    destruct (isAuthenticated req); cbn; auto.
    destruct (db_post _ _); reflexivity.
  - unfold get_resolve, await_resolve, try_catch, bind, emit, modify.
    destruct (truthy _); cbn; auto. destruct (resolve _ _); reflexivity.
  - unfold get_resolve, await_resolve, try_catch, bind, emit, modify.
    destruct (truthy _); cbn; auto. destruct (resolve _ _); reflexivity.
  - destruct r; reflexivity.
  - destruct r; reflexivity.
Qed.

(** X8: each of the five record routes reads from the database exactly the
    key its cache middleware derives for the request; a record that is found
    is cached and then sent, unchanged, and a read that fails is forwarded to
    [next] with nothing cached and nothing sent. *)
Theorem record_route_reads_caches_replies
  (db_get : string -> Err + Json) (r : RecordRoute) (id : string) :
  record_route db_get r id =
  (CallDbGet (cache_key r id) ::
     match db_get (cache_key r id) with
     | inr record => [CallCache record; CallJson record]
     | inl err => [CallNext err]
     end,
   Ret tt).
Proof.
  destruct r; cbn [record_route cache_key];
    unfold get_preprint_by_id, get_review_by_id, get_request_by_id,
      get_user_by_id, get_role_by_id, await_db_get,
      preprint_cache_key, review_cache_key, request_cache_key,
      user_cache_key, role_cache_key;
    match goal with |- context [db_get ?k] => destruct (db_get k) end;
    reflexivity.
Qed.

(** X9: the cache keys of the record routes never collide: two requests get
    the same key only when they go to the same route with the same id. *)
Theorem cache_keys_do_not_collide
  (r1 r2 : RecordRoute) (id1 id2 : string) :
  cache_key r1 id1 = cache_key r2 id2 -> r1 = r2 /\ id1 = id2.
Proof.
  destruct r1, r2; cbn;
    unfold preprint_cache_key, review_cache_key, request_cache_key,
      user_cache_key, role_cache_key; cbn;
    intros H; first [discriminate H | injection H as ->; auto].
Qed.

Lemma cache_keys_do_not_collide_witness :
  cache_key RequestRecord "42" = cache_key RequestRecord "42" /\
  RequestRecord = RequestRecord /\ "42" = "42".
Proof.
  split; [reflexivity|].
  apply (@cache_keys_do_not_collide RequestRecord RequestRecord "42" "42").
  reflexivity.
Defined.

(** X10: GET /pdf fetches the [url] parameter once and settles the request
    once: it pipes the fetched body to [res] only when the fetch resolved with
    an ok response, forwards the fetch's own error when it rejected, and
    otherwise forwards an error made from the upstream status. *)
Theorem pdf_proxy_outcome
  (fetch : option QueryValue -> Err + FetchResponse) (req : Request) :
  let url := query_get (query req) "url" in
  get_pdf fetch req =
  (CallFetch url ::
     match fetch url with
     | inl err => [CallNext err]
     | inr r =>
         if ok r then [CallPipeBody (pdf_body r)]
         else [CallNextCreated (status r)]
     end,
   Ret tt) /\
  List.length (filter settles (fst (get_pdf fetch req))) = 1.
Proof.
  cbv zeta. unfold get_pdf, await_fetch, stry, sbind, call, sret. cbn.
  destruct (fetch _) as [err | r]; cbn; [auto|].
  destruct (ok r); auto.
Qed.

(** * The background script *)

(** X11: the message listener returns [true], which keeps the channel open for
    a later answer, exactly when the message is a session-cookie check; it
    then looks up the cookie [rapid.sid] once, and the callback of that lookup
    answers once with the cookie it is given, found or not.  Any other message
    causes no call. *)
Theorem session_cookie_check
  (CHECK_SESSION_COOKIE SESSION_COOKIE : string) (COOKIE_URL : option string)
  (request_type : option string) :
  let reaction :=
    on_runtime_message CHECK_SESSION_COOKIE SESSION_COOKIE COOKIE_URL
      request_type in
  (snd reaction = true <-> request_type = Some CHECK_SESSION_COOKIE) /\
  (snd reaction = false <-> fst reaction = []) /\
  (fst reaction = [] \/
   exists callback,
     fst reaction = [CookiesGet COOKIE_URL "rapid.sid" callback] /\
     forall cookie, callback cookie = [SendResponse SESSION_COOKIE cookie]).
Proof.
  cbv zeta. unfold on_runtime_message.
  destruct request_type as [t|]; cbn.
  - destruct (String.eqb_spec t CHECK_SESSION_COOKIE) as [-> | Hne]; cbn.
    + repeat split; auto; try discriminate. right. eauto.
    + repeat split; auto; try discriminate.
      intros [= H]. contradiction.
  - repeat split; auto; discriminate.
Qed.

(** X12: every badge or icon call made for a port is aimed at the tab of that
    port's sender, whatever the port sends: one tab's messages never change
    another tab's badge. *)
Theorem badge_calls_stay_on_sender_tab
  (port : Port) (msgs : list PortMessage) :
  Forall (fun c => call_tab c = sender_tab port /\ sender_tab port <> None)
    (port_session port msgs).
Proof.
  unfold port_session, on_connect.
  destruct (String.eqb (port_name port) "stats"); [|constructor].
  induction msgs as [|msg msgs IH]; cbn [flat_map]; [constructor|].
  apply Forall_app. split; [|exact IH].
  unfold on_port_message, sender_tab_id.
  destruct (sender_tab port) as [tab|];
    destruct (String.eqb (msg_type msg) "STATS");
    [repeat constructor; discriminate | | constructor |];
    destruct (String.eqb (msg_type msg) "HAS_GSCHOLAR"); cbn;
    repeat constructor; discriminate.
Qed.

Lemma number_text_round_trip n : number_of_text (number_toString n) = Some n.
Proof.
  unfold number_of_text, number_toString.
  rewrite NilEmpty.usu. cbn. rewrite Unsigned.of_to. reflexivity.
Qed.

(** X13: on a port named [stats] whose sender is a tab, when the totals of
    the STATS messages are safe integers, the badge text is set once per STATS
    message and to nothing else: read as decimal numerals, the texts set are
    the totals [nReviews + nRequests] of the STATS messages, in order, so the
    badge shows the total of the latest one. *)
Theorem badge_text_follows_stats (tab : nat) (msgs : list PortMessage) :
  Forall safe_total (filter is_stats msgs) ->
  map number_of_text (badge_texts (port_session (mkPort "stats" (Some tab)) msgs))
  = map (fun msg => Some (nReviews msg + nRequests msg)) (filter is_stats msgs).
Proof.
  intros _.
  unfold port_session, on_connect. cbn [port_name String.eqb Ascii.eqb Bool.eqb].
  cbn -[on_port_message].
  induction msgs as [|msg msgs IH]; cbn [flat_map filter]; [reflexivity|].
  unfold badge_texts in *. rewrite flat_map_app, map_app, IH.
  unfold on_port_message, sender_tab_id, is_stats. cbn [sender_tab].
  destruct (String.eqb (msg_type msg) "STATS"); cbn.
  - rewrite number_text_round_trip. reflexivity.
  - destruct (String.eqb (msg_type msg) "HAS_GSCHOLAR"); reflexivity.
Qed.

Lemma badge_text_follows_stats_witness :
  let msgs := [mkPortMessage "STATS" 2 3 false;
               mkPortMessage "HAS_GSCHOLAR" 0 0 true;
               mkPortMessage "STATS" 10 0 false] in
  Forall safe_total (filter is_stats msgs) /\
  badge_texts (port_session (mkPort "stats" (Some 7)) msgs) = ["5"; "10"] /\
  map number_of_text (badge_texts (port_session (mkPort "stats" (Some 7)) msgs))
  = map (fun msg => Some (nReviews msg + nRequests msg)) (filter is_stats msgs).
Proof.
  cbv zeta.
  assert (Hsafe : Forall safe_total
            (filter is_stats
               [mkPortMessage "STATS" 2 3 false;
                mkPortMessage "HAS_GSCHOLAR" 0 0 true;
                mkPortMessage "STATS" 10 0 false])).
  { cbn. repeat constructor; unfold safe_total, MAX_SAFE_INTEGER; cbn;
      intros H; discriminate H. }
  split; [exact Hsafe|]. split; [reflexivity|].
  apply (@badge_text_follows_stats 7
           [mkPortMessage "STATS" 2 3 false;
            mkPortMessage "HAS_GSCHOLAR" 0 0 true;
            mkPortMessage "STATS" 10 0 false]).
  exact Hsafe.
Defined.

(** X14: on such a port the badge colour is set once per HAS_GSCHOLAR message,
    red [#ff3333] when [hasGscholar] holds and grey otherwise, and a STATS or
    unknown message never changes it. *)
Theorem badge_color_follows_gscholar (tab : nat) (msgs : list PortMessage) :
  badge_colors (port_session (mkPort "stats" (Some tab)) msgs)
  = map (fun msg => if hasGscholar msg then "#ff3333" else "grey")
      (filter is_gscholar msgs).
Proof.
  unfold port_session, on_connect. cbn -[on_port_message].
  induction msgs as [|msg msgs IH]; cbn [flat_map filter]; [reflexivity|].
  unfold badge_colors in *. rewrite flat_map_app, IH.
  unfold on_port_message, sender_tab_id, is_gscholar. cbn [sender_tab].
  destruct (String.eqb_spec (msg_type msg) "STATS") as [E | _]; cbn.
  - rewrite E. reflexivity.
  - destruct (String.eqb (msg_type msg) "HAS_GSCHOLAR"); reflexivity.
Qed.

(** X15: a port that is not named [stats], or whose sender is not a tab, never
    causes a call on the browser action, whatever it sends. *)
Theorem foreign_ports_change_nothing
  (port : Port) (msgs : list PortMessage) :
  port_name port <> "stats" \/ sender_tab port = None ->
  port_session port msgs = [].
Proof.
  intros H. unfold port_session, on_connect.
  destruct (String.eqb_spec (port_name port) "stats") as [E | _];
    [| reflexivity].
  destruct H as [H | H]; [contradiction|].
  induction msgs as [|msg msgs IH]; cbn [flat_map]; [reflexivity|].
  rewrite IH. unfold on_port_message, sender_tab_id. rewrite H.
  destruct (String.eqb (msg_type msg) "STATS"); [reflexivity|].
  destruct (String.eqb (msg_type msg) "HAS_GSCHOLAR"); reflexivity.
Qed.

Lemma foreign_ports_change_nothing_witness :
  let port := mkPort "stats" None in
  let msgs := [mkPortMessage "STATS" 2 3 false;
               mkPortMessage "HAS_GSCHOLAR" 0 0 true] in
  (port_name port <> "stats" \/ sender_tab port = None) /\
  port_session port msgs = [].
Proof.
  cbv zeta. split; [right; reflexivity|].
  apply (@foreign_ports_change_nothing (mkPort "stats" None)
           [mkPortMessage "STATS" 2 3 false;
            mkPortMessage "HAS_GSCHOLAR" 0 0 true]).
  right. reflexivity.
Defined.
